(** * caseclient.py: the CASE registry client, embedded and verified

    The program is one Python class, [CASEClient], that talks to three remote
    endpoints through the [requests] library: it loads credentials, exchanges
    them for a bearer token, issues authenticated GET requests with one
    re-authentication on 401/403, and pages through [/CFDocuments].

    The embedding is shallow.  Python values that come out of JSON are the
    inductive [json]; the instance attributes, the requests sent so far and
    the lines printed so far form the [World]; a method is a function from
    the world to a result (a value or a raised exception) and a new world.
    The remote hosts are a parameter: a [Server] answers each request from
    the requests it has seen before. *)

From Stdlib Require Import ZArith List String Ascii Bool Lia DecimalString.
From Stdlib Require Import Sorted Permutation OrderedTypeEx.
Import ListNotations.
Local Open Scope string_scope.
Local Open Scope Z_scope.
Set Warnings "-register-all".

(** ** Python values *)

(** What [json.load] and [response.json()] produce.  [JNull] is [None];
    numbers are the integers (the client computes with no other number); a
    dict is the list of its items in insertion order. *)
Inductive json : Type :=
| JNull
| JBool (b : bool)
| JNum (z : Z)
| JStr (s : string)
| JArr (items : list json)
| JObj (fields : list (string * json)).

(** Truth value of an object, as tested by [if x:] and [x and y]. *)
Definition truthy (v : json) : bool :=
  match v with
  | JNull => false
  | JBool b => b
  | JNum z => negb (z =? 0)
  | JStr s => negb (String.eqb s EmptyString)
  | JArr items => match items with [] => false | _ :: _ => true end
  | JObj fields => match fields with [] => false | _ :: _ => true end
  end.

(** Lookup of a key among the items of a dict. *)
Fixpoint lookup (key : string) (fields : list (string * json)) : option json :=
  match fields with
  | [] => None
  | (k, v) :: rest => if String.eqb k key then Some v else lookup key rest
  end.

(** The one-character strings of a string, which is what iterating over a
    [str] yields. *)
Fixpoint chars (s : string) : list json :=
  match s with
  | EmptyString => []
  | String c rest => JStr (String c EmptyString) :: chars rest
  end.

(** ** HTTP, as seen through [requests] *)

Inductive Method : Type := GET | POST.

Record Request : Type := mkRequest {
  method : Method;
  url : string;
  headers : list (string * string);
  data : list (string * string);   (* form fields of a POST *)
  verify : bool                    (* certificate verification *)
}.

(** A response: its status, its body, and what [response.json()] makes of
    the body ([None] when the body is not JSON). *)
Record Response : Type := mkResponse {
  status_code : Z;
  text : string;
  json_body : option json
}.

(** [Response.ok] of [requests]: true unless [raise_for_status] would raise,
    which it does for the statuses 400 to 599. *)
Definition ok (r : Response) : bool :=
  negb ((400 <=? status_code r) && (status_code r <? 600)).

(** A request either gets a response or fails below HTTP (DNS, refused
    connection, TLS, timeout). *)
Inductive Outcome : Type :=
| Responded (r : Response)
| TransportFailure.

(** The remote side: the outcome of a request, given the requests that were
    sent before it, oldest first. *)
Definition Server : Type := list Request -> Request -> Outcome.

(** ** Exceptions and results *)

Inductive Exn : Type :=
| SystemExit (code : Z)
| AssertionError (message : string)
| HTTPError (response : Response)
| RequestException                  (* transport-level failure in requests *)
| KeyError (key : string)
| TypeError
| ValueError                        (* body is not JSON *)
| UnicodeEncodeError
| OSError                           (* the credential file cannot be read *)
| FuelExhausted.                    (* the bounded unrolling of [while] ran out *)

Inductive Result (A : Type) : Type :=
| Return (a : A)
| Raise (e : Exn).
Arguments Return {A} a.
Arguments Raise {A} e.

(** The value a call returned, if it returned. *)
Definition returned {A : Type} (r : Result A) : option A :=
  match r with
  | Return a => Some a
  | Raise _ => None
  end.

(** ** Operations on values that can raise *)

(** [obj[key]] for a string key: only a dict accepts it. *)
Definition getitem (obj : json) (key : string) : Result json :=
  match obj with
  | JObj fields =>
      match lookup key fields with
      | Some v => Return v
      | None => Raise (KeyError key)
      end
  | _ => Raise TypeError
  end.

(** [a + b] where the code concatenates strings: both must be [str]. *)
Definition str_add (a b : json) : Result string :=
  match a, b with
  | JStr x, JStr y => Return (x ++ y)
  | _, _ => Raise TypeError
  end.

(** [documents.extend(chunk)]: the elements of a list, the keys of a dict,
    the characters of a string; other values are not iterable. *)
Definition extend (documents : list json) (chunk : json) : Result (list json) :=
  match chunk with
  | JArr items => Return (documents ++ items)%list
  | JObj fields => Return (documents ++ map (fun kv => JStr (fst kv)) fields)%list
  | JStr s => Return (documents ++ chars s)%list
  | _ => Raise TypeError
  end.

(** [s.encode('ascii')]: the bytes of [s], when every character is below 128. *)
Definition is_ascii (c : ascii) : bool := (N_of_ascii c <? 128)%N.

Definition encode_ascii (s : string) : Result (list ascii) :=
  if forallb is_ascii (list_ascii_of_string s)
  then Return (list_ascii_of_string s)
  else Raise UnicodeEncodeError.

(** ** base64.b64encode *)

Module Base64.

Definition alphabet : string :=
  "ABCDEFGHIJKLMNOPQRSTUVWXYZabcdefghijklmnopqrstuvwxyz0123456789+/".

Definition digit (n : N) : ascii :=
  match String.get (N.to_nat n) alphabet with
  | Some c => c
  | None => "="%char
  end.

Definition quad (a b c d : ascii) (rest : string) : string :=
  String a (String b (String c (String d rest))).

Fixpoint b64encode (bytes : list ascii) : string :=
  match bytes with
  | [] => EmptyString
  | [a] =>
      let n := (N_of_ascii a * 16)%N in
      quad (digit (n / 64)) (digit (n mod 64)) "=" "=" EmptyString
  | [a; b] =>
      let n := ((N_of_ascii a * 256 + N_of_ascii b) * 4)%N in
      quad (digit (n / 4096)) (digit ((n / 64) mod 64)) (digit (n mod 64)) "=" EmptyString
  | a :: b :: c :: rest =>
      let n := (N_of_ascii a * 65536 + N_of_ascii b * 256 + N_of_ascii c)%N in
      quad (digit (n / 262144)) (digit ((n / 4096) mod 64))
           (digit ((n / 64) mod 64)) (digit (n mod 64)) (b64encode rest)
  end.

End Base64.

(** ** The world a method runs in *)

(** What [print] wrote: the arguments of a [print] call, which it joins with
    spaces, or a [bytes] object, which it writes as a literal. *)
Inductive Printed : Type :=
| PrintArgs (args : list string)
| PrintBytes (content : string).

(** The attributes of the instance ([None] until assigned), the requests
    sent so far, oldest first, and the output so far. *)
Record World : Type := mkWorld {
  client_id : json;
  client_secret : json;
  access_token : json;
  trace : list Request;
  stdout : list Printed
}.

(** A freshly allocated instance, before [__init__] runs. *)
Definition new_instance : World := mkWorld JNull JNull JNull [] [].

(** What the program finds around it: the remote hosts, the credential file
    ([os.path.exists] and [json.load(open(...))] on its path), and the text
    that [str] gives for a list or a dict, which is left open. *)
Record Env : Type := mkEnv {
  server : Server;
  CREDENTIALS_PATH : string;
  path_exists : bool;
  load_credentials : Result json;
  container_repr : json -> string
}.

(** A method: from the world to a result and the world it leaves. *)
Definition M (A : Type) : Type := World -> Result A * World.

Definition ret {A : Type} (a : A) : M A := fun w => (Return a, w).

Definition raise {A : Type} (e : Exn) : M A := fun w => (Raise e, w).

Definition bind {A B : Type} (m : M A) (k : A -> M B) : M B :=
  fun w =>
    match m w with
    | (Return a, w') => k a w'
    | (Raise e, w') => (Raise e, w')
    end.

Definition lift {A : Type} (r : Result A) : M A := fun w => (r, w).

Declare Scope py_scope.
Delimit Scope py_scope with py.
Notation "x <- m ;; k" := (bind m (fun x => k))
  (at level 61, m at next level, right associativity) : py_scope.
Notation "m ;;; k" := (bind m (fun _ => k))
  (at level 61, right associativity) : py_scope.
Local Open Scope py_scope.

Definition read {A : Type} (attr : World -> A) : M A := fun w => (Return (attr w), w).

Definition set_client_id (v : json) : M unit :=
  fun w => (Return tt, mkWorld v (client_secret w) (access_token w) (trace w) (stdout w)).

Definition set_client_secret (v : json) : M unit :=
  fun w => (Return tt, mkWorld (client_id w) v (access_token w) (trace w) (stdout w)).

Definition set_access_token (v : json) : M unit :=
  fun w => (Return tt, mkWorld (client_id w) (client_secret w) v (trace w) (stdout w)).

(** The world once [p] is written. *)
Definition printed (p : Printed) (w : World) : World :=
  mkWorld (client_id w) (client_secret w) (access_token w) (trace w) (stdout w ++ [p]).

(** The world once [req] is sent. *)
Definition sent (req : Request) (w : World) : World :=
  mkWorld (client_id w) (client_secret w) (access_token w) (trace w ++ [req]) (stdout w).

Definition print (p : Printed) : M unit := fun w => (Return tt, printed p w).

(** Sending a request: it joins the trace, and the server's outcome is a
    response or the exception of the HTTP library. *)
Definition send (srv : Server) (req : Request) : M Response :=
  fun w =>
    match srv (trace w) req with
    | Responded r => (Return r, sent req w)
    | TransportFailure => (Raise RequestException, sent req w)
    end.

(** [response.json()]. *)
Definition response_json (r : Response) : Result json :=
  match json_body r with
  | Some j => Return j
  | None => Raise ValueError
  end.

(** [response.raise_for_status()]. *)
Definition raise_for_status (r : Response) : M unit :=
  if ok r then ret tt else raise (HTTPError r).

(** [assert cond, message]. *)
Definition assert (cond : bool) (message : string) : M unit :=
  if cond then ret tt else raise (AssertionError message).

(** [while cond: body], unrolled at most [fuel] times; [FuelExhausted] is
    the model's own signal that the unrolling was too short. *)
Fixpoint while {S : Type} (fuel : nat) (cond : S -> bool) (body : S -> M S)
    (s : S) : M S :=
  match fuel with
  | O => raise FuelExhausted
  | Datatypes.S fuel' =>
      if cond s then s' <- body s ;; while fuel' cond body s' else ret s
  end.

(** ** Module constants *)

Definition BASE_URL : string := "https://caseregistry.imsglobal.org/ims/case/v1p0".

Definition CLIENTOKEN_ENDPOINT : string :=
  "https://oauth2-case.imsglobal.org/oauth2server/clienttoken".

Definition BEARERCHECK_ENDPOINT : string :=
  "https://oauth2-case.imsglobal.org/oauth2server/bearercheck".

(** ** class CASEClient *)

Module CASEClient.
Section Methods.

Variable E : Env.

(** [str(v)], also what ["{}".format(v)] inserts. *)
Definition str (v : json) : string :=
  match v with
  | JNull => "None"
  | JBool true => "True"
  | JBool false => "False"
  | JNum z => NilZero.string_of_int (Z.to_int z)
  | JStr s => s
  | _ => container_repr E v
  end.

(** [requests.get(url, headers=headers, verify=False)]. *)
Definition requests_get (url : string) (headers : list (string * string)) : M Response :=
  send (server E) (mkRequest GET url headers [] false).

(** [requests.post(url, data, headers=headers, verify=False)]. *)
Definition requests_post (url : string) (data headers : list (string * string)) : M Response :=
  send (server E) (mkRequest POST url headers data false).

(** Lines 41 to 52.  The arguments default to [None], here [JNull]. *)
Definition set_credentials (client_id' client_secret' : json) : M unit :=
  if truthy client_id' && truthy client_secret' then
    set_client_id client_id' ;;;
    set_client_secret client_secret'
  else if path_exists E then
    print (PrintArgs ["Loading credentails from"; CREDENTIALS_PATH E]) ;;;
    credentials <- lift (load_credentials E) ;;
    v <- lift (getitem credentials "client_id") ;;
    set_client_id v ;;;
    v <- lift (getitem credentials "client_secret") ;;
    set_client_secret v
  else
    print (PrintArgs ["Failed to load client_id and client_secret credentials."]) ;;;
    raise (SystemExit (-2)).

Definition scopes_requested : list string :=
  [ "http://purl.imsglobal.org/casenetwork/case/v1p0/scope/core.readonly";
    "http://purl.imsglobal.org/casenetwork/case/v1p0/scope/all.readonly" ].

Definition bearer (token : json) : list (string * string) :=
  [("Authorization", "Bearer " ++ str token)].

(** Lines 54 to 82.  The failed [assert] is what the specification calls
    the authentication error. *)
Definition obtain_access_token : M unit :=
  let scope := String.concat " " scopes_requested in
  let data := [("grant_type", "client_credentials"); ("scope", scope)] in
  id <- read client_id ;;
  secret <- read client_secret ;;
  id_colon <- lift (str_add id (JStr ":")) ;;
  header_str <- lift (str_add (JStr id_colon) secret) ;;
  header_bytes <- lift (encode_ascii header_str) ;;
  let basic_auth_header := Base64.b64encode header_bytes in
  let headers := [("Authorization", "Basic " ++ basic_auth_header)] in
  print (PrintArgs ["POST"; CLIENTOKEN_ENDPOINT]) ;;;
  response <- requests_post CLIENTOKEN_ENDPOINT data headers ;;
  assert (ok response) ("Failed to get access_token." ++ text response) ;;;
  body <- lift (response_json response) ;;
  token <- lift (getitem body "access_token") ;;
  set_access_token token.

(** Lines 84 to 90. *)
Definition is_authenticated : M bool :=
  token <- read access_token ;;
  let url := BEARERCHECK_ENDPOINT ++ "?token=" ++ str token in
  response <- requests_get url [] ;;
  if ok response then ret true else ret false.

(** Lines 35 to 39. *)
Definition __init__ (client_id' client_secret' : json) : M unit :=
  set_credentials client_id' client_secret' ;;;
  obtain_access_token ;;;
  live <- is_authenticated ;;
  if live then print (PrintArgs ["Client successfully authenticated."]) else ret tt.

(** The URL that [get] builds: the query string is added when [params] is a
    non-empty dict. *)
Definition build_url (path : string) (params : option (list (string * json))) : string :=
  let url := BASE_URL ++ path in
  match params with
  | Some ((_ :: _) as items) =>
      let querystring :=
        "?" ++ String.concat "&" (map (fun kv => fst kv ++ "=" ++ str (snd kv)) items) in
      url ++ querystring
  | _ => url
  end.

(** [response.status_code in [401, 403]]. *)
Definition unauthorized (r : Response) : bool :=
  (status_code r =? 401) || (status_code r =? 403).

(** Lines 93 to 122.  [params] is [None] or a dict with string keys.  The
    [HTTPError] of [raise_for_status] is what the specification calls the
    API error; after it the method would fall off its end and return [None]. *)
Definition get (path : string) (params : option (list (string * json))) : M json :=
  let url := build_url path params in
  token <- read access_token ;;
  print (PrintArgs ["GET"; url]) ;;;
  response <- requests_get url (bearer token) ;;
  response <-
    (if unauthorized response then
       live <- is_authenticated ;;
       if negb live then
         obtain_access_token ;;;
         token <- read access_token ;;
         requests_get url (bearer token)
       else ret response
     else ret response) ;;
  if ok response then
    lift (response_json response)
  else
    print (PrintArgs ["Error " ++ str (JNum (status_code response)) ++ " on GET " ++ url]) ;;;
    print (PrintBytes (text response)) ;;;
    raise_for_status response ;;;
    ret JNull.

Definition chunk_size : Z := 50.
Definition max_requests : Z := 10.
Definition CFDocuments_endpoint : string := "/CFDocuments".

(** The local variables of [get_documents] that the loop changes. *)
Record Locals : Type := mkLocals {
  documents : list json;
  done : bool;
  counter : Z
}.

(** [done == False and counter < max_requests]. *)
Definition loop_test (l : Locals) : bool :=
  Bool.eqb (done l) false && (counter l <? max_requests).

Definition page_params (counter : Z) : list (string * json) :=
  [ ("offset", JNum (chunk_size * counter));
    ("limit", JNum chunk_size);
    ("sort", JStr "identifier");
    ("orderBy", JStr "asc") ].

(** Lines 138 to 150, one turn of the loop. *)
Definition loop_body (l : Locals) : M Locals :=
  let params := page_params (counter l) in
  data <- get CFDocuments_endpoint (Some params) ;;
  documents_chunk <- lift (getitem data "CFDocuments") ;;
  if truthy documents_chunk then
    documents' <- lift (extend (documents l) documents_chunk) ;;
    ret (mkLocals documents' (done l) (counter l + 1))
  else
    ret (mkLocals (documents l) true (counter l)).

(** Lines 125 to 151, the loop unrolled at most [fuel] times. *)
Definition get_documents (fuel : nat) : M (list json) :=
  l <- while fuel loop_test loop_body (mkLocals [] false 0) ;;
  ret (documents l).

End Methods.
End CASEClient.

(** ** The report of the main block *)

(** Lines 164 to 171, on documents as the registry describes them: the
    report reads four fields of a document, all of them strings. *)
Module Main.

Record Document : Type := mkDocument {
  creator : string;
  title : string;
  adoptionStatus : string;
  identifier : string
}.

(** [itemgetter('creator', 'title')]. *)
Definition creator_title (d : Document) : string * string := (creator d, title d).

(** [a < b] on tuples of two strings: the first components decide unless
    they are equal. *)
Definition tuple_lt (a b : string * string) : bool :=
  String.ltb (fst a) (fst b) || (String.eqb (fst a) (fst b) && String.ltb (snd a) (snd b)).

(** [sorted(l, key=key)]: the sort is stable and compares keys with [<]
    only.  An element goes in front of the first element that is not below
    it, so in front of those that came later with an equal key. *)
Fixpoint insert (d : Document) (l : list Document) : list Document :=
  match l with
  | [] => [d]
  | d' :: rest =>
      if tuple_lt (creator_title d') (creator_title d)
      then d' :: insert d rest
      else d :: d' :: rest
  end.

Definition sorted (l : list Document) : list Document := fold_right insert [] l.

(** [groupby(l, key=itemgetter('creator'))]: the runs of consecutive
    documents with equal creators, each with its creator. *)
Fixpoint groupby (l : list Document) : list (string * list Document) :=
  match l with
  | [] => []
  | d :: rest =>
      match groupby rest with
      | (k, g) :: groups =>
          if String.eqb (creator d) k
          then (k, d :: g) :: groups
          else (creator d, [d]) :: (k, g) :: groups
      | [] => [(creator d, [d])]
      end
  end.

(** [d[k] = v] on a dict: a key that is present keeps its place. *)
Fixpoint dict_set (k : string) (v : list Document)
    (d : list (string * list Document)) : list (string * list Document) :=
  match d with
  | [] => [(k, v)]
  | (k', v') :: rest =>
      if String.eqb k' k then (k', v) :: rest else (k', v') :: dict_set k v rest
  end.

(** [dict(pairs)]. *)
Definition dict (pairs : list (string * list Document)) : list (string * list Document) :=
  fold_left (fun d kv => dict_set (fst kv) (snd kv) d) pairs [].

Definition sorted_documents (all_documents : list Document) : list Document :=
  sorted all_documents.

Definition documents_by_creator (all_documents : list Document)
    : list (string * list Document) :=
  dict (groupby (sorted_documents all_documents)).

(** Line 171. *)
Definition document_line (d : Document) : Printed :=
  PrintArgs ["      -"; title d; "(" ++ adoptionStatus d ++ ")"; identifier d].

(** Lines 169 to 171, for one creator. *)
Definition creator_lines (entry : string * list Document) : list Printed :=
  PrintArgs ["  - Creator:"; fst entry] :: map document_line (snd entry).

(** Lines 164 to 171: what is printed for the documents fetched. *)
Definition report (all_documents : list Document) : list Printed :=
  PrintArgs ["Creator > CFDocuments::";
             NilZero.string_of_uint (Nat.to_uint (List.length all_documents));
             "in total"]
  :: PrintArgs ["===================================="]
  :: flat_map creator_lines (documents_by_creator all_documents).

End Main.

(** Documents to run the report on. *)
Definition doc (c t : string) (i : string) : Main.Document :=
  Main.mkDocument c t "Adopted" i.

(** ** Servers and environments to run the client against *)

(** A request for a page of documents: a GET below [BASE_URL/CFDocuments]. *)
Definition is_page_request (req : Request) : bool :=
  match method req with
  | GET => String.prefix (BASE_URL ++ CASEClient.CFDocuments_endpoint) (url req)
  | POST => false
  end.

(** The response [r] is a successful page holding the records [docs]. *)
Definition carries (r : Response) (docs : list json) : Prop :=
  ok r = true /\
  exists body, json_body r = Some body /\
               getitem body "CFDocuments" = Return (JArr docs).

Definition page_response (docs : list json) : Response :=
  mkResponse 200 EmptyString (Some (JObj [("CFDocuments", JArr docs)])).

Definition token_response (token : string) : Response :=
  mkResponse 200 EmptyString (Some (JObj [("access_token", JStr token)])).

Definition status_response (status : Z) (body : string) : Response :=
  mkResponse status body None.

(** A server that plays a script: the n-th request gets the n-th outcome. *)
Definition scripted (script : list Outcome) : Server :=
  fun history _ => nth (List.length history) script TransportFailure.

(** A server that answers every request with the same response. *)
Definition constant (r : Response) : Server := fun _ _ => Responded r.

(** A server that cannot be reached. *)
Definition unreachable : Server := fun _ _ => TransportFailure.

(** An environment with the given server and no credential file. *)
Definition env_of (srv : Server) : Env :=
  mkEnv srv "credentials/casenetwork.json" false (Raise OSError) (fun _ => EmptyString).

(** An instance that holds credentials and a token. *)
Definition instance (id secret token : string) : World :=
  mkWorld (JStr id) (JStr secret) (JStr token) [] [].

(** A record of the collection, [n] of them in a page. *)
Definition record (i : Z) : json := JObj [("identifier", JNum i)].

Definition page_from (start n : nat) : list json :=
  map (fun i => record (Z.of_nat i)) (seq start n).

(** An environment whose credential file exists and holds [credentials]. *)
Definition env_with_file (srv : Server) (credentials : json) : Env :=
  mkEnv srv "credentials/casenetwork.json" true (Return credentials) (fun _ => EmptyString).

(** ** The requests the client sends, named *)

(** The GET of a resource with a bearer token. *)
Definition resource_request (E : Env) (url : string) (token : json) : Request :=
  mkRequest GET url (CASEClient.bearer E token) [] false.

(** The liveness check of a token. *)
Definition check_request (E : Env) (token : json) : Request :=
  mkRequest GET (BEARERCHECK_ENDPOINT ++ "?token=" ++ CASEClient.str E token) [] [] false.

(** The token request for a pair of credentials. *)
Definition token_request (id secret : string) : Request :=
  mkRequest POST CLIENTOKEN_ENDPOINT
    [("Authorization",
      "Basic " ++ Base64.b64encode (list_ascii_of_string ((id ++ ":") ++ secret)))]
    [("grant_type", "client_credentials");
     ("scope", String.concat " " CASEClient.scopes_requested)]
    false.

(** The request for the page that the loop asks for when its counter is [k]. *)
Definition page_request (E : Env) (token : json) (k : Z) : Request :=
  resource_request E
    (CASEClient.build_url E CASEClient.CFDocuments_endpoint
       (Some (CASEClient.page_params k)))
    token.

(** A GET of the resource at [target], as opposed to the liveness check and
    the token request. *)
Definition is_resource_get (target : string) (req : Request) : bool :=
  match method req with
  | GET => String.eqb (url req) target
  | POST => false
  end.

(** ** Counting what was logged *)

(** [get] announces each of its calls with [print('GET', url)]; nothing
    else in the program prints two arguments of which the first is GET. *)
Definition is_get_line (p : Printed) : bool :=
  match p with
  | PrintArgs [verb; _] => String.eqb verb "GET"
  | _ => false
  end.

Definition get_lines (w : World) : nat := List.length (filter is_get_line (stdout w)).

(** The script of a call of [get] that is refused, finds its token dead,
    gets a new one and is then answered with [last]. *)
Definition refused_then (last : Response) : Server :=
  scripted [ Responded (status_response 401 "token expired");
             Responded (status_response 401 "token unknown");
             Responded (token_response "fresh");
             Responded last ].

(** A server that serves a page only right after a token request, refuses
    every other page request with a 401, and fails every liveness check. *)
Definition grudging : Server :=
  fun history req =>
    match method req with
    | POST => Responded (token_response "fresh")
    | GET =>
        if is_page_request req then
          match method (last history req) with
          | POST => Responded (page_response [record 0])
          | GET => Responded (status_response 401 "unauthorized")
          end
        else Responded (status_response 401 "dead")
    end.

(** ** Notions the proofs use *)

(** The blocks of [get] after its first request, named so that lemmas can
    speak of them; [get_unfold] puts them back together. *)

(** Lines 112 to 116: a new token, then the same GET again. *)
Definition refresh_and_retry (E : Env) (url : string) : M Response :=
  CASEClient.obtain_access_token E ;;;
  token <- read access_token ;;
  CASEClient.requests_get E url (CASEClient.bearer E token).

(** Lines 110 to 116: the response that [get] goes on with. *)
Definition reauthenticate (E : Env) (url : string) (response : Response) : M Response :=
  if CASEClient.unauthorized response then
    live <- CASEClient.is_authenticated E ;;
    if negb live then refresh_and_retry E url else ret response
  else ret response.

(** Lines 117 to 122: the parsed body, or the error. *)
Definition conclude (E : Env) (url : string) (response : Response) : M json :=
  if ok response then
    lift (response_json response)
  else
    print (PrintArgs ["Error " ++ CASEClient.str E (JNum (status_code response))
                  ++ " on GET " ++ url]) ;;;
    print (PrintBytes (text response)) ;;;
    raise_for_status response ;;;
    ret JNull.

Definition get_from_response (E : Env) (url : string) (response : Response) : M json :=
  response <- reauthenticate E url response ;;
  conclude E url response.

(** A method keeps the relation [R] when the world it leaves is related to
    the world it started in, whatever its result. *)
Definition keeps (R : World -> World -> Prop) {A : Type} (m : M A) : Prop :=
  forall w, R w (snd (m w)).

(** The trace only grows. *)
Definition trace_grows (w w' : World) : Prop :=
  exists more, trace w' = (trace w ++ more)%list.


(** The identifier of a client whose bytes are not ASCII. *)
Definition latin_id : string := String (ascii_of_nat 233) EmptyString.

(** ** The paginator against well-behaved servers *)

(** A server that serves the pages [pages 0], [pages 1], ... in the order
    in which they are asked for, whatever else it is asked. *)
Definition paged (pages : nat -> list json) : Server :=
  fun history req =>
    if is_page_request req
    then Responded (page_response (pages (List.length (filter is_page_request history))))
    else Responded (token_response "t").

(** The pages of a finite list, followed by empty pages. *)
Definition pages_of_list (pages : list (list json)) : nat -> list json :=
  fun k => nth k pages [].

(** [srv], which has already seen [before], answers the page requests that
    follow in order: the k-th of them gets the page [pages k]. *)
Definition serves_in_order (srv : Server) (before : list Request)
    (pages : nat -> list json) : Prop :=
  forall (asked : list Request) (req : Request),
    forallb is_page_request asked = true ->
    is_page_request req = true ->
    exists r, srv (before ++ asked)%list req = Responded r /\
              carries r (pages (List.length asked)).

(** What a reader of pages collects from page [k] on with [budget] requests
    left: the pages up to the first empty one. *)
Fixpoint collected (pages : nat -> list json) (k budget : nat) : list json :=
  match budget with
  | O => []
  | S budget' =>
      match pages k with
      | [] => []
      | docs => (docs ++ collected pages (S k) budget')%list
      end
  end.

(** The number of requests that takes. *)
Fixpoint requests_made (pages : nat -> list json) (k budget : nat) : nat :=
  match budget with
  | O => O
  | S budget' =>
      match pages k with
      | [] => 1%nat
      | _ => S (requests_made pages (S k) budget')
      end
  end.

(** The dataset is fixed: the outcome of a page request depends on its URL
    alone, not on what was asked before nor on the token presented. *)
Definition fixed_dataset (srv : Server) : Prop :=
  forall (h h' : list Request) (req req' : Request),
    is_page_request req = true ->
    is_page_request req' = true ->
    url req = url req' ->
    srv h req = srv h' req'.

(** A server with a fixed dataset of three records, served by offset. *)
Definition three_records : Server :=
  fun _ req =>
    if String.eqb (url req)
         (BASE_URL ++ "/CFDocuments?offset=0&limit=50&sort=identifier&orderBy=asc")
    then Responded (page_response [record 1; record 2; record 3])
    else Responded (page_response []).

(** ** Termination of the loop *)

(** The unrollings that the loop of [get_documents] needs from the state
    [l]: one for each page it may still ask for, and one for the test that
    ends it. *)
Definition fuel_needed (l : CASEClient.Locals) : nat :=
  if CASEClient.loop_test l
  then S (Z.to_nat (CASEClient.max_requests - CASEClient.counter l))
  else 1%nat.



(** ** Notions for the further properties *)

(** A POST to the token endpoint. *)
Definition is_token_post (req : Request) : bool :=
  match method req with
  | POST => String.eqb (url req) CLIENTOKEN_ENDPOINT
  | GET => false
  end.

(** The value is a [str]. *)
Definition is_str (v : json) : bool :=
  match v with
  | JStr _ => true
  | _ => false
  end.

(** What may follow the first request of a call of [get] for [target] that
    started with the token [token] and ends with the token [token'] stored.
    Either the stored token is still the one from the start, and what
    followed is nothing, or the liveness check, or the check and a token
    request; or what followed is the check, a token request and the GET of
    [target] again, this time with the token that is now stored. *)
Definition wire_after (E : Env) (target : string) (token token' : json)
    (more : list Request) : Prop :=
  (token' = token /\
   (more = [] \/
    more = [check_request E token] \/
    exists post, is_token_post post = true /\
                 more = [check_request E token; post])) \/
  (exists post, is_token_post post = true /\
     more = [check_request E token; post; resource_request E target token']).

(** A request that the paginator may send while its counter is [k]. *)
Definition paginator_request (E : Env) (k : Z) (req : Request) : Prop :=
  (exists token, req = page_request E token k) \/
  (exists token, req = check_request E token) \/
  is_token_post req = true.

(** The token [v] was issued between the worlds [w] and [w']: a token
    request sent after [w] got a successful response whose JSON body has [v]
    as its [access_token]. *)
Definition issued_between (E : Env) (w w' : World) (v : json) : Prop :=
  exists (h : list Request) (post : Request) (rest : list Request)
         (r : Response) (body : json),
    trace w' = (h ++ post :: rest)%list /\
    (List.length (trace w) <= List.length h)%nat /\
    is_token_post post = true /\
    server E h post = Responded r /\
    ok r = true /\
    json_body r = Some body /\
    getitem body "access_token" = Return v.

(** From [w] to [w'] the credentials are kept, the trace grows, and the
    stored token is the old one or one issued on the way. *)
Definition honest_step (E : Env) (w w' : World) : Prop :=
  client_id w' = client_id w /\
  client_secret w' = client_secret w /\
  (exists more, trace w' = (trace w ++ more)%list) /\
  (access_token w' = access_token w \/ issued_between E w w' (access_token w')).

(** [srv], which has already seen [before], answers the first page requests
    that follow with the pages of the list, in order; what it does after
    them is left open. *)
Definition serves_first (srv : Server) (before : list Request)
    (pages : list (list json)) : Prop :=
  forall (asked : list Request) (req : Request),
    forallb is_page_request asked = true ->
    is_page_request req = true ->
    (List.length asked < List.length pages)%nat ->
    exists r, srv (before ++ asked)%list req = Responded r /\
              carries r (nth (List.length asked) pages []).

(** The world after the paginator, started in [w], has fetched its first
    [n] pages without incident. *)
Fixpoint after_pages (E : Env) (w : World) (n : nat) : World :=
  match n with
  | O => w
  | S n' =>
      let req := page_request E (access_token w) (Z.of_nat n') in
      sent req (printed (PrintArgs ["GET"; url req]) (after_pages E w n'))
  end.

(** A server that serves the pages of the list and then answers [last]. *)
Definition pages_then (pages : list (list json)) (last : Outcome) : Server :=
  fun history _ =>
    if (List.length history <? List.length pages)%nat
    then Responded (page_response (nth (List.length history) pages []))
    else last.

(** No page of the list is empty. *)
Definition all_nonempty (pages : list (list json)) : Prop :=
  Forall (fun page => page <> []) pages.

(** ** Notions for the report *)

(** [d] is not above [d'] in the order of the sort. *)
Definition not_above (d d' : Main.Document) : Prop :=
  Main.tuple_lt (Main.creator_title d') (Main.creator_title d) = false.

(** The title of [d] is not above that of [d']. *)
Definition title_not_above (d d' : Main.Document) : Prop :=
  String.ltb (Main.title d') (Main.title d) = false.

(** The documents with a given creator and title. *)
Definition with_key (k : string * string) (d : Main.Document) : bool :=
  String.eqb (Main.creator d) (fst k) && String.eqb (Main.title d) (snd k).

Definition has_creator (c : string) (d : Main.Document) : bool :=
  String.eqb (Main.creator d) c.

Definition has_title (t : string) (d : Main.Document) : bool :=
  String.eqb (Main.title d) t.

(** The lines of the report that list a document, and those that name a
    creator. *)
Definition is_document_line (p : Printed) : bool :=
  match p with
  | PrintArgs [_; _; _; _] => true
  | _ => false
  end.

Definition is_creator_line (p : Printed) : bool :=
  match p with
  | PrintArgs [_; _] => true
  | _ => false
  end.

Definition creator_line (c : string) : Printed := PrintArgs ["  - Creator:"; c].


(** * Properties *)

Local Open Scope list_scope.

(** ** Sanity checks of the embedding on concrete inputs *)

Example b64encode_a :
  Base64.b64encode (list_ascii_of_string "a") = "YQ==".
Proof. reflexivity. Qed.

Example b64encode_ab :
  Base64.b64encode (list_ascii_of_string "ab") = "YWI=".
Proof. reflexivity. Qed.

Example b64encode_id_secret :
  Base64.b64encode (list_ascii_of_string "id:secret") = "aWQ6c2VjcmV0".
Proof. reflexivity. Qed.

Example b64encode_high_bits :
  Base64.b64encode (list_ascii_of_string "~~~?>") = "fn5+Pz4=".
Proof. reflexivity. Qed.

Example page_url_second :
  CASEClient.build_url (env_of unreachable) CASEClient.CFDocuments_endpoint
    (Some (CASEClient.page_params 1))
  = "https://caseregistry.imsglobal.org/ims/case/v1p0/CFDocuments?offset=50&limit=50&sort=identifier&orderBy=asc".
Proof. reflexivity. Qed.

Example ok_statuses :
  map (fun s => ok (status_response s EmptyString)) [200; 204; 302; 399; 400; 401; 403; 500; 599; 600]
  = [true; true; true; true; false; false; false; false; false; true].
Proof. reflexivity. Qed.

Example get_documents_two_pages :
  fst (CASEClient.get_documents
         (env_of (scripted [Responded (page_response [record 1; record 2]);
                            Responded (page_response [record 3]);
                            Responded (page_response [])]))
         11 (instance "id" "secret" "t"))
  = Return [record 1; record 2; record 3].
Proof. reflexivity. Qed.

(** ** Credentials *)

Section Credentials.

Variable E : Env.

Lemma set_credentials_explicit (id secret : json) (w : World) :
  truthy id && truthy secret = true ->
  CASEClient.set_credentials E id secret w
  = (Return tt, mkWorld id secret (access_token w) (trace w) (stdout w)).
Proof.
  intros H. unfold CASEClient.set_credentials. rewrite H. reflexivity.
Qed.

Lemma set_credentials_fallback (id secret : json) (w : World) :
  truthy id && truthy secret = false ->
  CASEClient.set_credentials E id secret w
  = CASEClient.set_credentials E JNull JNull w.
Proof.
  intros H. unfold CASEClient.set_credentials. rewrite H. reflexivity.
Qed.

Lemma set_credentials_exit (w : World) :
  path_exists E = false ->
  CASEClient.set_credentials E JNull JNull w
  = (Raise (SystemExit (-2)),
     mkWorld (client_id w) (client_secret w) (access_token w) (trace w)
       (stdout w ++ [PrintArgs ["Failed to load client_id and client_secret credentials."]])).
Proof.
  intros H. unfold CASEClient.set_credentials. simpl. rewrite H. reflexivity.
Qed.

End Credentials.

(** C8. When no usable explicit pair is given (in particular when both
    arguments are absent) and no credential file exists, loading the
    credentials raises [SystemExit(-2)]; the constructor stops there, so no
    request at all, and so no token request, is sent. *)
Theorem missing_credentials_exit (E : Env) (id secret : json) (w : World) :
  truthy id && truthy secret = false ->
  path_exists E = false ->
  fst (CASEClient.set_credentials E id secret w) = Raise (SystemExit (-2)) /\
  fst (CASEClient.__init__ E id secret w) = Raise (SystemExit (-2)) /\
  trace (snd (CASEClient.__init__ E id secret w)) = trace w.
Proof.
  intros Hpair Hfile.
  assert (Hset := set_credentials_fallback E id secret w Hpair).
  rewrite (set_credentials_exit E w Hfile) in Hset.
  unfold CASEClient.__init__, bind. rewrite Hset. simpl. auto.
Qed.

Lemma missing_credentials_exit_witness :
  fst (CASEClient.set_credentials (env_of unreachable) JNull JNull new_instance)
    = Raise (SystemExit (-2)) /\
  fst (CASEClient.__init__ (env_of unreachable) JNull JNull new_instance)
    = Raise (SystemExit (-2)) /\
  trace (snd (CASEClient.__init__ (env_of unreachable) JNull JNull new_instance))
    = trace new_instance.
Proof.
  apply (missing_credentials_exit (env_of unreachable) JNull JNull new_instance);
    reflexivity.
Defined.

(** C10. The explicit arguments are used exactly when both are truthy
    (supplied and non-empty), and then nothing else is consulted.  When one
    of them is [None] or empty, the call behaves as the call without
    arguments does: the outcome and the world it leaves are those of
    [set_credentials(None, None)], which reads the credential file if it
    exists and exits with -2 if not. *)
Theorem explicit_credentials_need_both (E : Env) (id secret : json) (w : World) :
  (truthy id && truthy secret = true ->
   CASEClient.set_credentials E id secret w
   = (Return tt, mkWorld id secret (access_token w) (trace w) (stdout w))) /\
  (truthy id && truthy secret = false ->
   CASEClient.set_credentials E id secret w
   = CASEClient.set_credentials E JNull JNull w /\
   (path_exists E = false ->
    fst (CASEClient.set_credentials E id secret w) = Raise (SystemExit (-2))) /\
   (path_exists E = true ->
    forall credentials file_id file_secret,
      load_credentials E = Return credentials ->
      getitem credentials "client_id" = Return file_id ->
      getitem credentials "client_secret" = Return file_secret ->
      let w' := snd (CASEClient.set_credentials E id secret w) in
      fst (CASEClient.set_credentials E id secret w) = Return tt /\
      client_id w' = file_id /\ client_secret w' = file_secret)).
Proof.
  split.
  - apply set_credentials_explicit.
  - intros H. split; [apply set_credentials_fallback; exact H|].
    rewrite (set_credentials_fallback E id secret w H). split.
    + intros Hfile. rewrite (set_credentials_exit E w Hfile). reflexivity.
    + intros Hfile credentials file_id file_secret Hload Hid Hsecret.
      unfold CASEClient.set_credentials, bind, lift. simpl.
      rewrite Hfile. simpl. rewrite Hload, Hid. simpl. rewrite Hsecret.
      simpl. auto.
Qed.

(** ** Strings *)

Lemma append_assoc (a b c : string) : ((a ++ b) ++ c = a ++ b ++ c)%string.
Proof.
  induction a as [|ch a IH]; simpl; [reflexivity | now rewrite IH].
Qed.

Lemma prefix_append (a b : string) : String.prefix a (a ++ b)%string = true.
Proof.
  induction a as [|ch a IH]; simpl.
  - now destruct b.
  - destruct (ascii_dec ch ch) as [_|N]; [exact IH | now elim N].
Qed.

(** ** Status codes *)

Lemma unauthorized_not_ok (r : Response) : CASEClient.unauthorized r = true -> ok r = false.
Proof.
  unfold CASEClient.unauthorized, ok. intros H.
  apply orb_true_iff in H. destruct H as [H|H]; apply Z.eqb_eq in H; now rewrite H.
Qed.

Lemma ok_not_unauthorized (r : Response) : ok r = true -> CASEClient.unauthorized r = false.
Proof.
  intros H. destruct (CASEClient.unauthorized r) eqn:U; [|reflexivity].
  apply unauthorized_not_ok in U. congruence.
Qed.

Lemma ok_2xx (r : Response) : 200 <= status_code r < 300 -> ok r = true.
Proof.
  intros H. unfold ok.
  destruct (Z.leb_spec 400 (status_code r)); [lia | reflexivity].
Qed.

Lemma not_ok_4xx_5xx (r : Response) : 400 <= status_code r < 600 -> ok r = false.
Proof.
  intros H. unfold ok.
  destruct (Z.leb_spec 400 (status_code r)); [|lia].
  destruct (Z.ltb_spec (status_code r) 600); [reflexivity | lia].
Qed.

(** ** The token manager *)

Lemma is_authenticated_run (E : Env) (w : World) :
  CASEClient.is_authenticated E w
  = match server E (trace w) (check_request E (access_token w)) with
    | Responded r => (Return (ok r), sent (check_request E (access_token w)) w)
    | TransportFailure =>
        (Raise RequestException, sent (check_request E (access_token w)) w)
    end.
Proof.
  unfold CASEClient.is_authenticated, CASEClient.requests_get, bind, read, send.
  fold (check_request E (access_token w)).
  destruct (server E (trace w) (check_request E (access_token w))) as [r|];
    [destruct (ok r)|]; reflexivity.
Qed.

(** C5, as the code has it.  The liveness check sends one GET to the
    bearer-check endpoint with the token in the query string.  When a
    response arrives, the result is a boolean and no exception: it is
    [response.ok], which is true for every 2xx status and false for every
    4xx and 5xx status.  When the request fails below HTTP, no boolean is
    returned: the exception of the HTTP library reaches the caller. *)
Theorem liveness_check_result (E : Env) (w : World) :
  let req := check_request E (access_token w) in
  (forall r, server E (trace w) req = Responded r ->
     CASEClient.is_authenticated E w = (Return (ok r), sent req w) /\
     (200 <= status_code r < 300 -> ok r = true) /\
     (400 <= status_code r < 600 -> ok r = false)) /\
  (server E (trace w) req = TransportFailure ->
     CASEClient.is_authenticated E w = (Raise RequestException, sent req w)).
Proof.
  intros req. split.
  - intros r H. rewrite is_authenticated_run. fold req. rewrite H.
    split; [reflexivity|]. split; [apply ok_2xx | apply not_ok_4xx_5xx].
  - intros H. rewrite is_authenticated_run. fold req. now rewrite H.
Qed.

Lemma liveness_check_result_witness :
  fst (CASEClient.is_authenticated (env_of (constant (status_response 401 "expired")))
         (instance "id" "secret" "t")) = Return false /\
  fst (CASEClient.is_authenticated (env_of (constant (status_response 204 EmptyString)))
         (instance "id" "secret" "t")) = Return true /\
  fst (CASEClient.is_authenticated (env_of unreachable) (instance "id" "secret" "t"))
    = Raise RequestException.
Proof.
  pose proof (liveness_check_result (env_of (constant (status_response 401 "expired")))
                (instance "id" "secret" "t")) as [H401 _].
  pose proof (liveness_check_result (env_of (constant (status_response 204 EmptyString)))
                (instance "id" "secret" "t")) as [H204 _].
  pose proof (liveness_check_result (env_of unreachable)
                (instance "id" "secret" "t")) as [_ Hdown].
  destruct (H401 _ eq_refl) as [R401 [_ N401]].
  destruct (H204 _ eq_refl) as [R204 [Y204 _]].
  rewrite R401, R204, (Hdown eq_refl). simpl.
  rewrite (N401 ltac:(simpl; lia)), (Y204 ltac:(simpl; lia)). auto.
Defined.

(** C5, as stated, fails: with the liveness endpoint out of reach the check
    raises instead of returning [False]. *)
Lemma liveness_check_raises_when_unreachable :
  fst (CASEClient.is_authenticated (env_of unreachable) (instance "id" "secret" "t"))
    = Raise RequestException /\
  ~ (exists b : bool,
       fst (CASEClient.is_authenticated (env_of unreachable) (instance "id" "secret" "t"))
       = Return b).
Proof.
  split; [reflexivity|]. intros [b H]. discriminate H.
Qed.

Lemma obtain_access_token_run (E : Env) (w : World) (id secret : string) :
  client_id w = JStr id ->
  client_secret w = JStr secret ->
  forallb is_ascii (list_ascii_of_string ((id ++ ":") ++ secret)%string) = true ->
  CASEClient.obtain_access_token E w
  = let w1 := sent (token_request id secret)
                (printed (PrintArgs ["POST"; CLIENTOKEN_ENDPOINT]) w) in
    match server E (trace w) (token_request id secret) with
    | TransportFailure => (Raise RequestException, w1)
    | Responded r =>
        if ok r then
          match json_body r with
          | None => (Raise ValueError, w1)
          | Some body =>
              match getitem body "access_token" with
              | Raise e => (Raise e, w1)
              | Return token =>
                  (Return tt,
                   mkWorld (client_id w) (client_secret w) token (trace w1) (stdout w1))
              end
          end
        else (Raise (AssertionError ("Failed to get access_token." ++ text r)%string), w1)
    end.
Proof.
  destruct w as [cid csecret token0 requests output]. cbn [client_id client_secret trace].
  intros Hid Hsecret Hascii. subst cid csecret.
  unfold CASEClient.obtain_access_token, CASEClient.requests_post, bind, read, lift.
  cbn [client_id client_secret str_add]. unfold encode_ascii. rewrite Hascii.
  unfold print, send. cbn [trace printed].
  fold (token_request id secret).
  destruct (server E requests (token_request id secret)) as [r|]; [|reflexivity].
  unfold assert, response_json.
  destruct (ok r); [|reflexivity]. unfold ret.
  destruct (json_body r) as [body|]; [|reflexivity].
  destruct (getitem body "access_token"); reflexivity.
Qed.

(** C6, as the code has it.  For credentials that are ASCII strings, the
    token request is one POST to the token endpoint with
    grant_type=client_credentials, the two scope URIs joined by a space, and
    the header Basic base64(client_id + ":" + client_secret).  When the
    response is not successful, and only then, the assertion error is raised,
    with the response body in its message, and the stored token is left as
    it was.  When the response is successful and its JSON body has the field
    access_token, the call returns and the stored token is exactly that
    value. *)
Theorem token_request_result (E : Env) (w : World) (id secret : string) :
  client_id w = JStr id ->
  client_secret w = JStr secret ->
  forallb is_ascii (list_ascii_of_string ((id ++ ":") ++ secret)%string) = true ->
  let post := token_request id secret in
  let run := CASEClient.obtain_access_token E w in
  trace (snd run) = trace w ++ [post] /\
  data post = [("grant_type", "client_credentials");
               ("scope",
                "http://purl.imsglobal.org/casenetwork/case/v1p0/scope/core.readonly http://purl.imsglobal.org/casenetwork/case/v1p0/scope/all.readonly")] /\
  forall r, server E (trace w) post = Responded r ->
    ((exists message, fst run = Raise (AssertionError message)) <-> ok r = false) /\
    (ok r = false ->
     fst run = Raise (AssertionError ("Failed to get access_token." ++ text r)%string) /\
     access_token (snd run) = access_token w) /\
    (ok r = true ->
     forall body token,
       json_body r = Some body ->
       getitem body "access_token" = Return token ->
       fst run = Return tt /\ access_token (snd run) = token).
Proof.
  intros Hid Hsecret Hascii post run.
  assert (Hrun := obtain_access_token_run E w id secret Hid Hsecret Hascii).
  fold run post in Hrun. cbv zeta in Hrun.
  split; [|split; [reflexivity|]].
  - rewrite Hrun. destruct (server E (trace w) post) as [r|]; [|reflexivity].
    destruct (ok r); [|reflexivity].
    destruct (json_body r) as [body|]; [|reflexivity].
    destruct (getitem body "access_token"); reflexivity.
  - intros r Hr. rewrite Hr in Hrun. rewrite Hrun. clear Hrun.
    destruct (ok r) eqn:Hok; split.
    + split; [|discriminate]. intros [message H].
      destruct (json_body r) as [body|]; [|discriminate H].
      destruct (getitem body "access_token") as [token|e] eqn:G;
        [discriminate H|].
      unfold getitem in G. destruct body; try discriminate G.
      * inversion H; subst; discriminate G.
      * inversion H; subst; discriminate G.
      * inversion H; subst; discriminate G.
      * inversion H; subst; discriminate G.
      * inversion H; subst; discriminate G.
      * destruct (lookup "access_token" fields); [discriminate G|].
        inversion G; subst; discriminate H.
    + split; [discriminate|]. intros _ body token Hbody Htoken.
      rewrite Hbody, Htoken. auto.
    + split; [reflexivity|]. intros _. eexists. reflexivity.
    + split; [auto | discriminate].
Qed.

Lemma token_request_result_witness :
  let E := env_of (constant (token_response "fresh")) in
  let E' := env_of (constant (status_response 400 "invalid_client")) in
  let w := instance "id" "secret" "old" in
  (trace (snd (CASEClient.obtain_access_token E w)) = [token_request "id" "secret"] /\
   headers (token_request "id" "secret") = [("Authorization", "Basic aWQ6c2VjcmV0"%string)] /\
   fst (CASEClient.obtain_access_token E w) = Return tt /\
   access_token (snd (CASEClient.obtain_access_token E w)) = JStr "fresh") /\
  (fst (CASEClient.obtain_access_token E' w)
   = Raise (AssertionError "Failed to get access_token.invalid_client") /\
   access_token (snd (CASEClient.obtain_access_token E' w)) = JStr "old").
Proof.
  intros E E' w.
  destruct (token_request_result E w "id" "secret" eq_refl eq_refl eq_refl)
    as [Htrace [_ Hresp]].
  destruct (token_request_result E' w "id" "secret" eq_refl eq_refl eq_refl)
    as [_ [_ Hresp']].
  destruct (Hresp _ eq_refl) as [_ [_ Hok]].
  destruct (Hresp' _ eq_refl) as [_ [Hfail _]].
  split.
  - split; [exact Htrace|]. split; [reflexivity|].
    exact (Hok eq_refl _ _ eq_refl eq_refl).
  - exact (Hfail eq_refl).
Defined.

(** C6, as stated, fails: a client identifier outside ASCII stops the call
    at [encode('ascii')], before anything is posted, although the endpoint
    would have answered with a token. *)
Lemma token_request_not_sent_for_non_ascii :
  let E := env_of (constant (token_response "fresh")) in
  let w := instance latin_id "secret" "old" in
  CASEClient.obtain_access_token E w = (Raise UnicodeEncodeError, w) /\
  trace (snd (CASEClient.obtain_access_token E w)) = [] /\
  server E (trace w) (token_request latin_id "secret")
  = Responded (token_response "fresh").
Proof.
  repeat split.
Qed.

(** ** What every step of a call preserves *)

Section Frame.

Variable E : Env.
Variable R : World -> World -> Prop.
Hypothesis R_refl : forall w, R w w.
Hypothesis R_trans : forall a b c, R a b -> R b c -> R a c.
Hypothesis R_sent : forall req w, R w (sent req w).
Hypothesis R_token : forall v w, R w (snd (set_access_token v w)).
Hypothesis R_post_line : forall w, R w (printed (PrintArgs ["POST"; CLIENTOKEN_ENDPOINT]) w).
Hypothesis R_error_line : forall s w, R w (printed (PrintArgs [s]) w).
Hypothesis R_bytes : forall s w, R w (printed (PrintBytes s) w).

Lemma keeps_ret {A : Type} (a : A) : keeps R (ret a).
Proof. intros w. apply R_refl. Qed.

Lemma keeps_raise {A : Type} (e : Exn) : keeps R (@raise A e).
Proof. intros w. apply R_refl. Qed.

Lemma keeps_lift {A : Type} (r : Result A) : keeps R (lift r).
Proof. intros w. apply R_refl. Qed.

Lemma keeps_read {A : Type} (attr : World -> A) : keeps R (read attr).
Proof. intros w. apply R_refl. Qed.

Lemma keeps_bind {A B : Type} (m : M A) (k : A -> M B) :
  keeps R m -> (forall a, keeps R (k a)) -> keeps R (bind m k).
Proof.
  intros Hm Hk w. unfold bind. specialize (Hm w).
  destruct (m w) as [[a|e] w1]; simpl in *.
  - eapply R_trans; [exact Hm | apply Hk].
  - exact Hm.
Qed.

Lemma keeps_send (req : Request) : keeps R (send (server E) req).
Proof.
  intros w. unfold send. destruct (server E (trace w) req); apply R_sent.
Qed.

Lemma keeps_assert (cond : bool) (message : string) : keeps R (assert cond message).
Proof. intros w. unfold assert. destruct cond; apply R_refl. Qed.

Lemma keeps_raise_for_status (r : Response) : keeps R (raise_for_status r).
Proof. intros w. unfold raise_for_status. destruct (ok r); apply R_refl. Qed.

Lemma keeps_is_authenticated : keeps R (CASEClient.is_authenticated E).
Proof.
  intros w. rewrite is_authenticated_run.
  destruct (server E (trace w) _); apply R_sent.
Qed.

Lemma keeps_obtain_access_token : keeps R (CASEClient.obtain_access_token E).
Proof.
  unfold CASEClient.obtain_access_token.
  repeat (apply keeps_bind; [|intros ?]);
    try apply keeps_read; try apply keeps_lift; try apply keeps_assert.
  - intros w. apply R_post_line.
  - apply keeps_send.
  - intros w. apply R_token.
Qed.

Lemma keeps_refresh_and_retry (url : string) : keeps R (refresh_and_retry E url).
Proof.
  unfold refresh_and_retry.
  apply keeps_bind; [apply keeps_obtain_access_token | intros _].
  apply keeps_bind; [apply keeps_read | intros t]. apply keeps_send.
Qed.

Lemma keeps_retry_if_dead (url : string) (r1 : Response) (live : bool) :
  keeps R (if negb live then refresh_and_retry E url else ret r1).
Proof.
  destruct live; simpl; [apply keeps_ret | apply keeps_refresh_and_retry].
Qed.

Lemma keeps_reauthenticate (url : string) (r1 : Response) :
  keeps R (reauthenticate E url r1).
Proof.
  unfold reauthenticate.
  destruct (CASEClient.unauthorized r1); [|apply keeps_ret].
  apply keeps_bind; [apply keeps_is_authenticated | intros live].
  apply keeps_retry_if_dead.
Qed.

Lemma keeps_conclude (url : string) (r : Response) : keeps R (conclude E url r).
Proof.
  unfold conclude. destruct (ok r); [apply keeps_lift|].
  apply keeps_bind; [intros w; apply R_error_line | intros _].
  apply keeps_bind; [intros w; apply R_bytes | intros _].
  apply keeps_bind; [apply keeps_raise_for_status | intros _].
  apply keeps_ret.
Qed.

Lemma keeps_get_from_response (url : string) (r1 : Response) :
  keeps R (get_from_response E url r1).
Proof.
  unfold get_from_response.
  apply keeps_bind; [apply keeps_reauthenticate | intros r].
  apply keeps_conclude.
Qed.

End Frame.

(** ** The authenticated client *)

Lemma get_unfold (E : Env) (path : string) (params : option (list (string * json)))
    (w : World) :
  let url := CASEClient.build_url E path params in
  let req := resource_request E url (access_token w) in
  CASEClient.get E path params w
  = match server E (trace w) req with
    | Responded r =>
        get_from_response E url r (sent req (printed (PrintArgs ["GET"; url]) w))
    | TransportFailure =>
        (Raise RequestException, sent req (printed (PrintArgs ["GET"; url]) w))
    end.
Proof.
  intros url req.
  unfold CASEClient.get, bind at 1 2 3. unfold read, print.
  unfold CASEClient.requests_get, send. cbn [trace printed access_token].
  fold url. fold (resource_request E url (access_token w)). fold req.
  destruct (server E (trace w) req); reflexivity.
Qed.

Lemma trace_grows_refl (w : World) : trace_grows w w.
Proof. exists []. now rewrite app_nil_r. Qed.

Lemma trace_grows_trans (a b c : World) :
  trace_grows a b -> trace_grows b c -> trace_grows a c.
Proof.
  intros [m1 H1] [m2 H2]. exists (m1 ++ m2). now rewrite H2, H1, app_assoc.
Qed.

Section TraceGrows.

Variable E : Env.

Let grows_sent : forall req w, trace_grows w (sent req w).
Proof. intros req w. now exists [req]. Qed.

Let grows_token : forall v w, trace_grows w (snd (set_access_token v w)).
Proof. intros v w. exists []. simpl. now rewrite app_nil_r. Qed.

Let grows_printed : forall p w, trace_grows w (printed p w).
Proof. intros p w. exists []. simpl. now rewrite app_nil_r. Qed.

Lemma retry_if_dead_trace_grows (url : string) (r1 : Response) (live : bool) :
  keeps trace_grows (if negb live then refresh_and_retry E url else ret r1).
Proof.
  apply keeps_retry_if_dead;
    first [ exact trace_grows_refl | exact trace_grows_trans | exact grows_sent
          | exact grows_token | intros; apply grows_printed ].
Qed.

Lemma conclude_trace_grows (url : string) (r : Response) :
  keeps trace_grows (conclude E url r).
Proof.
  apply keeps_conclude;
    first [ exact trace_grows_refl | exact trace_grows_trans | exact grows_sent
          | exact grows_token | intros; apply grows_printed ].
Qed.

Lemma get_from_response_trace_grows (url : string) (r1 : Response) :
  keeps trace_grows (get_from_response E url r1).
Proof.
  apply keeps_get_from_response;
    first [ exact trace_grows_refl | exact trace_grows_trans | exact grows_sent
          | exact grows_token | intros; apply grows_printed ].
Qed.

End TraceGrows.

Lemma get_from_response_ok (E : Env) (url : string) (r : Response) (w : World) :
  ok r = true ->
  get_from_response E url r w = (response_json r, w).
Proof.
  intros Hok. unfold get_from_response, reauthenticate, conclude.
  rewrite (ok_not_unauthorized r Hok). unfold bind, ret, lift. now rewrite Hok.
Qed.

(** C7. [get] builds [BASE_URL + path], followed by ['?'] and the
    [key=value] pairs joined with ['&'] when the dictionary of parameters is
    present and not empty; its first request is the GET of that URL with
    the header [Authorization: Bearer] and the stored token; when that
    response is successful the call ends there and yields
    [response.json()], the parsed body. *)
Theorem get_request_and_result (E : Env) (path : string)
    (params : option (list (string * json))) (w : World) :
  let url := CASEClient.build_url E path params in
  let req := resource_request E url (access_token w) in
  (params = None \/ params = Some [] -> url = (BASE_URL ++ path)%string) /\
  (forall kv items, params = Some (kv :: items) ->
     url = (BASE_URL ++ path ++ "?"
            ++ String.concat "&"
                 (map (fun kv => fst kv ++ "=" ++ CASEClient.str E (snd kv))
                      (kv :: items)))%string) /\
  method req = GET /\
  headers req
  = [("Authorization", ("Bearer " ++ CASEClient.str E (access_token w))%string)] /\
  (exists more,
     trace (snd (CASEClient.get E path params w)) = trace w ++ req :: more) /\
  (forall r, server E (trace w) req = Responded r -> ok r = true ->
     CASEClient.get E path params w
     = (response_json r, sent req (printed (PrintArgs ["GET"; url]) w)) /\
     forall body, json_body r = Some body ->
       fst (CASEClient.get E path params w) = Return body).
Proof.
  intros url req. repeat split.
  - intros [H|H]; subst url; rewrite H; reflexivity.
  - intros kv items H. subst url. rewrite H. unfold CASEClient.build_url.
    apply append_assoc.
  - rewrite get_unfold. fold url req.
    destruct (server E (trace w) req) as [r|].
    + destruct (get_from_response_trace_grows E url r
                  (sent req (printed (PrintArgs ["GET"; url]) w))) as [more H].
      exists more. rewrite H. simpl. now rewrite <- app_assoc.
    + now exists [].
  - rewrite get_unfold. fold url req. rewrite H.
    now apply get_from_response_ok.
  - intros body Hbody. rewrite get_unfold. fold url req. rewrite H.
    rewrite get_from_response_ok by assumption.
    unfold response_json. now rewrite Hbody.
Qed.

Lemma get_request_and_result_witness :
  let E := env_of (constant (page_response [record 1])) in
  let w := instance "id" "secret" "t" in
  CASEClient.build_url E "/CFDocuments" None
  = "https://caseregistry.imsglobal.org/ims/case/v1p0/CFDocuments"%string /\
  CASEClient.build_url E "/CFDocuments" (Some [("limit", JNum 5); ("sort", JStr "title")])
  = "https://caseregistry.imsglobal.org/ims/case/v1p0/CFDocuments?limit=5&sort=title"%string /\
  fst (CASEClient.get E "/CFDocuments" (Some [("limit", JNum 5); ("sort", JStr "title")]) w)
  = Return (JObj [("CFDocuments", JArr [record 1])]).
Proof.
  intros E w.
  destruct (get_request_and_result E "/CFDocuments" None w) as [Hnone _].
  destruct (get_request_and_result E "/CFDocuments"
              (Some [("limit", JNum 5); ("sort", JStr "title")]) w)
    as [_ [Hsome [_ [_ [_ Hok]]]]].
  split; [exact (Hnone (or_introl eq_refl))|].
  split; [exact (Hsome _ _ eq_refl)|].
  destruct (Hok _ eq_refl eq_refl) as [_ Hbody].
  exact (Hbody _ eq_refl).
Defined.

Lemma get_from_response_refresh (E : Env) (url : string) (w : World)
    (id secret : string) (r1 r2 r3 : Response) (body3 new_token : json) :
  let check := check_request E (access_token w) in
  let post := token_request id secret in
  let req2 := resource_request E url new_token in
  client_id w = JStr id ->
  client_secret w = JStr secret ->
  forallb is_ascii (list_ascii_of_string ((id ++ ":") ++ secret)%string) = true ->
  CASEClient.unauthorized r1 = true ->
  server E (trace w) check = Responded r2 -> ok r2 = false ->
  server E (trace w ++ [check]) post = Responded r3 -> ok r3 = true ->
  json_body r3 = Some body3 -> getitem body3 "access_token" = Return new_token ->
  forall r4, server E (trace w ++ [check; post]) req2 = Responded r4 ->
  get_from_response E url r1 w
  = let w4 := mkWorld (client_id w) (client_secret w) new_token
                (trace w ++ [check; post; req2])
                (stdout w ++ [PrintArgs ["POST"; CLIENTOKEN_ENDPOINT]]) in
    if ok r4 then (response_json r4, w4)
    else (Raise (HTTPError r4),
          printed (PrintBytes (text r4))
            (printed (PrintArgs [("Error " ++ CASEClient.str E (JNum (status_code r4))
                              ++ " on GET " ++ url)%string]) w4)).
Proof.
  intros check post req2 Hid Hsecret Hascii Hun H2 Hok2 H3 Hok3 Hbody Htoken r4 H4.
  unfold get_from_response, reauthenticate, refresh_and_retry, conclude. rewrite Hun.
  unfold bind at 1 2. rewrite is_authenticated_run. fold check. rewrite H2, Hok2.
  cbn [negb]. unfold bind at 1.
  rewrite (obtain_access_token_run E (sent check w) id secret Hid Hsecret Hascii).
  cbv zeta. cbn [trace sent printed]. fold post. rewrite H3, Hok3, Hbody, Htoken.
  unfold bind at 1. unfold read at 1. cbn [access_token].
  unfold CASEClient.requests_get, send. cbn [trace].
  fold (resource_request E url new_token). fold req2.
  replace ((trace w ++ [check]) ++ [post]) with (trace w ++ [check; post])
    by (now rewrite <- app_assoc).
  rewrite H4. unfold sent. cbn [client_id client_secret access_token trace stdout].
  rewrite <- (app_assoc (trace w) [check; post] [req2]). cbn [app].
  destruct (ok r4) eqn:Hok4.
  - reflexivity.
  - unfold bind, print, raise_for_status. rewrite Hok4. reflexivity.
Qed.

Lemma get_refresh_run (E : Env) (path : string)
    (params : option (list (string * json))) (w : World)
    (id secret : string) (r1 r2 r3 r4 : Response) (body3 new_token : json) :
  let url := CASEClient.build_url E path params in
  let req1 := resource_request E url (access_token w) in
  let check := check_request E (access_token w) in
  let post := token_request id secret in
  let req2 := resource_request E url new_token in
  client_id w = JStr id ->
  client_secret w = JStr secret ->
  forallb is_ascii (list_ascii_of_string ((id ++ ":") ++ secret)%string) = true ->
  server E (trace w) req1 = Responded r1 -> CASEClient.unauthorized r1 = true ->
  server E (trace w ++ [req1]) check = Responded r2 -> ok r2 = false ->
  server E (trace w ++ [req1; check]) post = Responded r3 -> ok r3 = true ->
  json_body r3 = Some body3 -> getitem body3 "access_token" = Return new_token ->
  server E (trace w ++ [req1; check; post]) req2 = Responded r4 ->
  let run := CASEClient.get E path params w in
  fst run = (if ok r4 then response_json r4 else Raise (HTTPError r4)) /\
  trace (snd run) = trace w ++ [req1; check; post; req2] /\
  access_token (snd run) = new_token.
Proof.
  intros url req1 check post req2 Hid Hsecret Hascii H1 Hun H2 Hok2 H3 Hok3
    Hbody Htoken H4 run.
  subst run. rewrite get_unfold. fold url req1. rewrite H1.
  set (w1 := sent req1 (printed (PrintArgs ["GET"; url]) w)).
  assert (Htrace : trace w1 = trace w ++ [req1]) by reflexivity.
  assert (H2' : server E (trace w1) check = Responded r2) by exact H2.
  assert (H3' : server E (trace w1 ++ [check]) post = Responded r3)
    by (rewrite Htrace, <- app_assoc; exact H3).
  assert (H4' : server E (trace w1 ++ [check; post]) req2 = Responded r4)
    by (rewrite Htrace, <- app_assoc; exact H4).
  rewrite (get_from_response_refresh E url w1 id secret r1 r2 r3 body3 new_token
             Hid Hsecret Hascii Hun H2' Hok2 H3' Hok3 Hbody Htoken r4 H4').
  cbv zeta. rewrite Htrace, <- app_assoc. cbn [app].
  destruct (ok r4); repeat split; reflexivity.
Qed.

Lemma check_is_not_resource (E : Env) (path : string)
    (params : option (list (string * json))) (token : json) :
  is_resource_get (CASEClient.build_url E path params) (check_request E token) = false.
Proof.
  unfold is_resource_get, check_request, CASEClient.build_url. cbn [method url].
  destruct params as [[|kv items]|]; reflexivity.
Qed.

Lemma two_resource_gets (E : Env) (path : string)
    (params : option (list (string * json))) (token token' : json)
    (id secret : string) :
  let target := CASEClient.build_url E path params in
  List.length
    (filter (is_resource_get target)
       [resource_request E target token; check_request E token;
        token_request id secret; resource_request E target token']) = 2%nat.
Proof.
  intros target. subst target. cbn [filter].
  rewrite check_is_not_resource.
  unfold is_resource_get. cbn [method url resource_request token_request].
  rewrite String.eqb_refl. reflexivity.
Qed.

(** C3. When the first response of [get] is a 401 or a 403, the next
    request is the liveness check of the stored token.  When that check
    fails, a token request follows; when it yields a token, the same URL is
    requested once more with the new token as bearer; and when that response
    is successful, [get] yields its [response.json()] (the parsed body when
    the body is JSON) and raises nothing.  The requests of the call are
    then exactly four: the two GETs of the resource, the liveness check
    and the token request between them. *)
Theorem get_retries_once_after_refresh (E : Env) (path : string)
    (params : option (list (string * json))) (w : World) (r1 : Response) :
  let url := CASEClient.build_url E path params in
  let req1 := resource_request E url (access_token w) in
  let check := check_request E (access_token w) in
  let run := CASEClient.get E path params w in
  server E (trace w) req1 = Responded r1 ->
  CASEClient.unauthorized r1 = true ->
  (exists more, trace (snd run) = trace w ++ req1 :: check :: more) /\
  forall (id secret : string) (r2 r3 r4 : Response) (body3 new_token : json),
    let post := token_request id secret in
    let req2 := resource_request E url new_token in
    client_id w = JStr id ->
    client_secret w = JStr secret ->
    forallb is_ascii (list_ascii_of_string ((id ++ ":") ++ secret)%string) = true ->
    server E (trace w ++ [req1]) check = Responded r2 -> ok r2 = false ->
    server E (trace w ++ [req1; check]) post = Responded r3 -> ok r3 = true ->
    json_body r3 = Some body3 -> getitem body3 "access_token" = Return new_token ->
    server E (trace w ++ [req1; check; post]) req2 = Responded r4 -> ok r4 = true ->
    fst run = response_json r4 /\
    (forall body, json_body r4 = Some body -> fst run = Return body) /\
    trace (snd run) = trace w ++ [req1; check; post; req2] /\
    List.length (filter (is_resource_get url) [req1; check; post; req2]) = 2%nat /\
    headers req2
    = [("Authorization", ("Bearer " ++ CASEClient.str E new_token)%string)].
Proof.
  intros url req1 check run H1 Hun. split.
  - subst run. rewrite get_unfold. fold url req1. rewrite H1.
    set (w1 := sent req1 (printed (PrintArgs ["GET"; url]) w)).
    unfold get_from_response, reauthenticate. rewrite Hun.
    unfold bind at 1 2. rewrite is_authenticated_run.
    change (access_token w1) with (access_token w). fold check.
    change (trace w1) with (trace w ++ [req1]).
    destruct (server E (trace w ++ [req1]) check) as [r2|].
    + set (w2 := sent check w1).
      destruct (retry_if_dead_trace_grows E url r1 (ok r2) w2) as [more1 Hm1].
      destruct ((if negb (ok r2) then refresh_and_retry E url else ret r1) w2)
        as [[r|e] w3]; cbn [snd] in Hm1.
      * destruct (conclude_trace_grows E url r w3) as [more2 Hm2].
        exists (more1 ++ more2). rewrite Hm2, Hm1. subst w2. simpl.
        now rewrite <- !app_assoc.
      * exists more1. cbn [snd]. rewrite Hm1. subst w2. simpl.
        now rewrite <- !app_assoc.
    + exists []. simpl. now rewrite <- app_assoc.
  - intros id secret r2 r3 r4 body3 new_token post req2 Hid Hsecret Hascii
      H2 Hok2 H3 Hok3 Hbody Htoken H4 Hok4.
    destruct (get_refresh_run E path params w id secret r1 r2 r3 r4 body3 new_token
                Hid Hsecret Hascii H1 Hun H2 Hok2 H3 Hok3 Hbody Htoken H4)
      as [Hres [Htrace _]].
    fold run in Hres, Htrace. rewrite Hok4 in Hres.
    repeat split; try assumption.
    + intros body Hb. rewrite Hres. unfold response_json. now rewrite Hb.
    + apply two_resource_gets.
Qed.

Lemma get_retries_once_after_refresh_witness :
  let E := env_of (refused_then (page_response [record 1])) in
  let w := instance "id" "secret" "old" in
  fst (CASEClient.get E "/CFDocuments" None w)
  = Return (JObj [("CFDocuments", JArr [record 1])]) /\
  List.length (trace (snd (CASEClient.get E "/CFDocuments" None w))) = 4%nat /\
  headers (resource_request E (CASEClient.build_url E "/CFDocuments" None) (JStr "fresh"))
  = [("Authorization", "Bearer fresh"%string)].
Proof.
  intros E w.
  destruct (get_retries_once_after_refresh E "/CFDocuments" None w
              (status_response 401 "token expired") eq_refl eq_refl) as [_ H].
  destruct (H "id" "secret"%string (status_response 401 "token unknown")
              (token_response "fresh") (page_response [record 1])
              (JObj [("access_token", JStr "fresh")]) (JStr "fresh")
              eq_refl eq_refl eq_refl eq_refl eq_refl eq_refl eq_refl eq_refl
              eq_refl eq_refl eq_refl)
    as [_ [Hbody [Htrace [_ Hheader]]]].
  split; [exact (Hbody _ eq_refl)|].
  split; [rewrite Htrace; reflexivity | exact Hheader].
Defined.


(** C4. In the same course of events (a first 401 or 403, a dead token, a
    new token obtained), when the response to the retried GET is not
    successful either (a second 401, or any other status from 400 to 599),
    [get] raises the HTTP error that carries that response, with its status
    code and body, and the requests of the call are the same four: there is
    no third GET of the resource. *)
Theorem get_fails_after_second_refusal (E : Env) (path : string)
    (params : option (list (string * json))) (w : World)
    (id secret : string) (r1 r2 r3 r4 : Response) (body3 new_token : json) :
  let target := CASEClient.build_url E path params in
  let req1 := resource_request E target (access_token w) in
  let check := check_request E (access_token w) in
  let post := token_request id secret in
  let req2 := resource_request E target new_token in
  let run := CASEClient.get E path params w in
  client_id w = JStr id ->
  client_secret w = JStr secret ->
  forallb is_ascii (list_ascii_of_string ((id ++ ":") ++ secret)%string) = true ->
  server E (trace w) req1 = Responded r1 -> CASEClient.unauthorized r1 = true ->
  server E (trace w ++ [req1]) check = Responded r2 -> ok r2 = false ->
  server E (trace w ++ [req1; check]) post = Responded r3 -> ok r3 = true ->
  json_body r3 = Some body3 -> getitem body3 "access_token" = Return new_token ->
  server E (trace w ++ [req1; check; post]) req2 = Responded r4 -> ok r4 = false ->
  fst run = Raise (HTTPError r4) /\
  trace (snd run) = trace w ++ [req1; check; post; req2] /\
  List.length (filter (is_resource_get target) [req1; check; post; req2]) = 2%nat.
Proof.
  intros target req1 check post req2 run Hid Hsecret Hascii H1 Hun H2 Hok2
    H3 Hok3 Hbody Htoken H4 Hok4.
  destruct (get_refresh_run E path params w id secret r1 r2 r3 r4 body3 new_token
              Hid Hsecret Hascii H1 Hun H2 Hok2 H3 Hok3 Hbody Htoken H4)
    as [Hres [Htrace _]].
  fold run in Hres, Htrace. rewrite Hok4 in Hres.
  repeat split; try assumption. apply two_resource_gets.
Qed.

Lemma get_fails_after_second_refusal_witness :
  let E := env_of (refused_then (status_response 401 "still refused")) in
  let w := instance "id" "secret" "old" in
  fst (CASEClient.get E "/CFDocuments" None w)
  = Raise (HTTPError (status_response 401 "still refused")) /\
  List.length (trace (snd (CASEClient.get E "/CFDocuments" None w))) = 4%nat.
Proof.
  intros E w.
  destruct (get_fails_after_second_refusal E "/CFDocuments" None w
              "id" "secret"%string (status_response 401 "token expired")
              (status_response 401 "token unknown") (token_response "fresh")
              (status_response 401 "still refused")
              (JObj [("access_token", JStr "fresh")]) (JStr "fresh")
              eq_refl eq_refl eq_refl eq_refl eq_refl eq_refl eq_refl eq_refl
              eq_refl eq_refl eq_refl eq_refl eq_refl)
    as [Hres [Htrace _]].
  split; [exact Hres | rewrite Htrace; reflexivity].
Defined.

Lemma explicit_credentials_need_both_witness :
  let E := env_with_file unreachable
             (JObj [("client_id", JStr "file-id"); ("client_secret", JStr "file-secret")]) in
  (CASEClient.set_credentials E (JStr "mine") (JStr EmptyString) new_instance
   = CASEClient.set_credentials E JNull JNull new_instance /\
   client_id (snd (CASEClient.set_credentials E (JStr "mine") (JStr EmptyString) new_instance))
   = JStr "file-id") /\
  fst (CASEClient.set_credentials (env_of unreachable) JNull (JStr "secret") new_instance)
  = Raise (SystemExit (-2)) /\
  client_id (snd (CASEClient.set_credentials E (JStr "mine") (JStr "secret") new_instance))
  = JStr "mine".
Proof.
  intros E.
  destruct (explicit_credentials_need_both E (JStr "mine") (JStr EmptyString) new_instance)
    as [_ Hfile].
  destruct (Hfile eq_refl) as [Hsame [_ Hread]].
  destruct (Hread eq_refl _ _ _ eq_refl eq_refl eq_refl) as [_ [Hid _]].
  destruct (explicit_credentials_need_both (env_of unreachable) JNull (JStr "secret")
              new_instance) as [_ Hexit].
  destruct (Hexit eq_refl) as [_ [Hexit' _]].
  destruct (explicit_credentials_need_both E (JStr "mine") (JStr "secret") new_instance)
    as [Hboth _].
  split; [split; [exact Hsame | exact Hid]|].
  split; [exact (Hexit' eq_refl)|].
  rewrite (Hboth eq_refl). reflexivity.
Defined.

(** ** The paginator *)

Lemma page_request_is_page_request (E : Env) (token : json) (k : Z) :
  is_page_request (page_request E token k) = true.
Proof.
  unfold is_page_request, page_request, resource_request. cbn [method url].
  unfold CASEClient.build_url, CASEClient.page_params. apply prefix_append.
Qed.

Lemma get_page_ok (E : Env) (k : Z) (w : World) (r : Response) (body : json) :
  let req := page_request E (access_token w) k in
  server E (trace w) req = Responded r ->
  ok r = true ->
  json_body r = Some body ->
  CASEClient.get E CASEClient.CFDocuments_endpoint (Some (CASEClient.page_params k)) w
  = (Return body, sent req (printed (PrintArgs ["GET"; url req]) w)).
Proof.
  intros req Hr Hok Hbody. rewrite get_unfold. cbv zeta.
  fold (page_request E (access_token w) k). fold req. rewrite Hr.
  rewrite get_from_response_ok by exact Hok.
  unfold response_json. now rewrite Hbody.
Qed.

Lemma loop_body_page (E : Env) (l : CASEClient.Locals) (w : World) (r : Response)
    (docs : list json) :
  let req := page_request E (access_token w) (CASEClient.counter l) in
  server E (trace w) req = Responded r ->
  carries r docs ->
  CASEClient.loop_body E l w
  = (Return (match docs with
             | [] => CASEClient.mkLocals (CASEClient.documents l) true (CASEClient.counter l)
             | _ => CASEClient.mkLocals (CASEClient.documents l ++ docs)
                      (CASEClient.done l) (CASEClient.counter l + 1)
             end),
     sent req (printed (PrintArgs ["GET"; url req]) w)).
Proof.
  intros req Hr [Hok [body [Hbody Hget]]].
  unfold CASEClient.loop_body, bind at 1.
  rewrite (get_page_ok E (CASEClient.counter l) w r body Hr Hok Hbody).
  fold req. unfold bind, lift, ret. rewrite Hget.
  destruct docs; reflexivity.
Qed.

Lemma page_requests_are_page_requests (E : Env) (token : json) (ks : list Z) :
  forallb is_page_request (map (page_request E token) ks) = true.
Proof.
  induction ks as [|k ks IH]; cbn [map forallb]; [reflexivity|].
  now rewrite page_request_is_page_request.
Qed.

Lemma loop_test_true (l : CASEClient.Locals) :
  CASEClient.done l = false ->
  CASEClient.counter l < CASEClient.max_requests ->
  CASEClient.loop_test l = true.
Proof.
  intros Hd Hc. unfold CASEClient.loop_test. rewrite Hd. simpl.
  now apply Z.ltb_lt.
Qed.

Lemma loop_test_false (l : CASEClient.Locals) :
  CASEClient.done l = true \/ CASEClient.max_requests <= CASEClient.counter l ->
  CASEClient.loop_test l = false.
Proof.
  intros [Hd|Hc]; unfold CASEClient.loop_test.
  - now rewrite Hd.
  - apply andb_false_iff. right. now apply Z.ltb_ge.
Qed.

Section Pagination.

Variable E : Env.
Variable pages : nat -> list json.
Variable before : list Request.
Variable token : json.
Hypothesis in_order : serves_in_order (server E) before pages.

(** The requests for the pages [k], [k+1], ..., [n] of them. *)
Let asked (k n : nat) : list Request :=
  map (page_request E token) (map Z.of_nat (seq k n)).

Lemma while_collects (budget : nat) :
  forall (k fuel : nat) (l : CASEClient.Locals) (w : World),
    (budget < fuel)%nat ->
    CASEClient.done l = false ->
    CASEClient.counter l = Z.of_nat k ->
    Z.of_nat (k + budget) = CASEClient.max_requests ->
    trace w = before ++ asked 0 k ->
    access_token w = token ->
    exists l' w',
      while fuel CASEClient.loop_test (CASEClient.loop_body E) l w = (Return l', w') /\
      CASEClient.documents l' = CASEClient.documents l ++ collected pages k budget /\
      trace w' = trace w ++ asked k (requests_made pages k budget) /\
      access_token w' = token.
Proof.
  induction budget as [|budget IH]; intros k fuel l w Hfuel Hdone Hcounter Hmax Htrace Htoken.
  - destruct fuel as [|fuel]; [lia|]. cbn [while].
    rewrite loop_test_false by (right; lia).
    exists l, w. cbn [collected requests_made]. unfold asked. cbn [seq map].
    now rewrite !app_nil_r.
  - destruct fuel as [|fuel]; [lia|]. cbn [while].
    rewrite loop_test_true by (try assumption; lia).
    destruct (in_order (asked 0 k) (page_request E token (CASEClient.counter l)))
      as [r [Hr Hcarries]].
    { apply page_requests_are_page_requests. }
    { apply page_request_is_page_request. }
    rewrite <- Htrace, <- Htoken in Hr.
    unfold asked in Hcarries. rewrite !length_map, length_seq in Hcarries.
    unfold bind. rewrite (loop_body_page E l w r (pages k) Hr Hcarries).
    rewrite Htoken, Hcounter.
    set (w1 := sent (page_request E token (Z.of_nat k)) _).
    cbn [collected requests_made].
    destruct (pages k) as [|doc docs] eqn:Hpage.
    + destruct fuel as [|fuel]; [lia|]. cbn [while].
      rewrite loop_test_false by (left; reflexivity).
      eexists. exists w1. split; [reflexivity|].
      cbn [CASEClient.documents]. rewrite app_nil_r.
      split; [reflexivity|]. split; [|exact Htoken]. reflexivity.
    + destruct (IH (S k) fuel
                  (CASEClient.mkLocals (CASEClient.documents l ++ doc :: docs)
                     (CASEClient.done l) (Z.of_nat k + 1)) w1)
        as [l' [w' [Hrun [Hdocs [Htr Htok]]]]].
      * lia.
      * exact Hdone.
      * cbn [CASEClient.counter]. lia.
      * lia.
      * subst w1. cbn [trace sent printed]. rewrite Htrace. unfold asked.
        rewrite seq_S, !map_app, app_assoc. reflexivity.
      * exact Htoken.
      * exists l', w'. split; [exact Hrun|].
        cbn [CASEClient.documents] in Hdocs.
        split; [rewrite Hdocs, <- app_assoc; reflexivity|].
        split; [|exact Htok].
        rewrite Htr. subst w1. cbn [trace sent printed].
        rewrite <- app_assoc. reflexivity.
Qed.

End Pagination.

Lemma get_documents_collects (E : Env) (pages : nat -> list json) (w : World)
    (fuel : nat) :
  serves_in_order (server E) (trace w) pages ->
  (11 <= fuel)%nat ->
  let run := CASEClient.get_documents E fuel w in
  fst run = Return (collected pages 0 10) /\
  trace (snd run)
  = trace w ++ map (page_request E (access_token w))
                 (map Z.of_nat (seq 0 (requests_made pages 0 10))) /\
  access_token (snd run) = access_token w.
Proof.
  intros Hserves Hfuel run. subst run. unfold CASEClient.get_documents, bind.
  destruct (while_collects E pages (trace w) (access_token w) Hserves 10 0 fuel
              (CASEClient.mkLocals [] false 0) w)
    as [l' [w' [Hrun [Hdocs [Htrace Htoken]]]]];
    try reflexivity; try lia.
  - cbn [seq map]. now rewrite app_nil_r.
  - rewrite Hrun. unfold ret. cbn [fst snd].
    cbn [CASEClient.documents app] in Hdocs. rewrite Hdocs. auto.
Qed.

Lemma paged_serves_in_order (pages : nat -> list json) :
  serves_in_order (paged pages) [] pages.
Proof.
  intros asked req Hasked Hreq. unfold paged. rewrite Hreq. cbn [app].
  eexists. split; [reflexivity|].
  replace (filter is_page_request asked) with asked.
  - split; [reflexivity|]. eexists. split; reflexivity.
  - clear Hreq. induction asked as [|a asked IH]; [reflexivity|].
    cbn [forallb] in Hasked. apply andb_true_iff in Hasked as [Ha Hrest].
    cbn [filter]. rewrite Ha. f_equal. now apply IH.
Qed.

(** C1. Against a server that answers the page requests, in the order in
    which they arrive, with pages of 50, 50, 23 and 0 records, the paginator
    returns the 123 records of the three pages, each page in the order the
    server gave and the pages in the order they were asked for, and it sends
    exactly four requests: the page requests for the counters 0, 1, 2, 3. *)
Theorem four_pages_give_123_records (E : Env) (w : World) (p0 p1 p2 : list json)
    (fuel : nat) :
  serves_in_order (server E) (trace w) (pages_of_list [p0; p1; p2; []]) ->
  List.length p0 = 50%nat ->
  List.length p1 = 50%nat ->
  List.length p2 = 23%nat ->
  (11 <= fuel)%nat ->
  let run := CASEClient.get_documents E fuel w in
  fst run = Return (p0 ++ p1 ++ p2) /\
  List.length (p0 ++ p1 ++ p2) = 123%nat /\
  trace (snd run) = trace w ++ map (page_request E (access_token w)) [0; 1; 2; 3] /\
  List.length (map (page_request E (access_token w)) [0; 1; 2; 3]) = 4%nat.
Proof.
  intros Hserves H0 H1 H2 Hfuel run.
  destruct (get_documents_collects E _ w fuel Hserves Hfuel) as [Hres [Htrace _]].
  fold run in Hres, Htrace.
  destruct p0 as [|d0 p0]; [discriminate H0|].
  destruct p1 as [|d1 p1]; [discriminate H1|].
  destruct p2 as [|d2 p2]; [discriminate H2|].
  cbn [collected requests_made pages_of_list nth seq map] in Hres, Htrace.
  rewrite app_nil_r in Hres.
  split; [exact Hres|]. split; [|split; [exact Htrace | reflexivity]].
  rewrite !length_app, H0, H1, H2. reflexivity.
Qed.

Lemma four_pages_give_123_records_witness :
  let E := env_of (paged (pages_of_list
                     [page_from 0 50; page_from 50 50; page_from 100 23; []])) in
  let run := CASEClient.get_documents E 11 (instance "id" "secret" "t") in
  fst run = Return (page_from 0 50 ++ page_from 50 50 ++ page_from 100 23) /\
  List.length (trace (snd run)) = 4%nat.
Proof.
  intros E run.
  destruct (four_pages_give_123_records E (instance "id" "secret" "t")
              (page_from 0 50) (page_from 50 50) (page_from 100 23) 11
              (paged_serves_in_order _) eq_refl eq_refl eq_refl (le_n 11))
    as [Hres [_ [Htrace _]]].
  split; [exact Hres|]. fold run in Htrace. rewrite Htrace. reflexivity.
Defined.

(** ** Termination of the loop, and what it costs *)

Section NeverExhausts.

Variable E : Env.



















(** What one turn of the loop makes of its variables. *)
Lemma loop_body_locals (l l' : CASEClient.Locals) (w w' : World) :
  CASEClient.loop_body E l w = (Return l', w') ->
  (CASEClient.done l' = CASEClient.done l /\
   CASEClient.counter l' = CASEClient.counter l + 1) \/
  (CASEClient.done l' = true /\ CASEClient.counter l' = CASEClient.counter l).
Proof.
  unfold CASEClient.loop_body, bind, lift, ret.
  destruct (CASEClient.get E _ _ w) as [[data|e] w1]; [|discriminate].
  destruct (getitem data "CFDocuments") as [chunk|e]; [|discriminate].
  destruct (truthy chunk).
  - destruct (extend (CASEClient.documents l) chunk) as [d|e]; [|discriminate].
    intros H. inversion H. subst. left. split; reflexivity.
  - intros H. inversion H. subst. right. split; reflexivity.
Qed.

Lemma fuel_needed_positive (l : CASEClient.Locals) : (1 <= fuel_needed l)%nat.
Proof. unfold fuel_needed. destruct (CASEClient.loop_test l); lia. Qed.

Lemma loop_test_inv (l : CASEClient.Locals) :
  CASEClient.loop_test l = true ->
  CASEClient.done l = false /\ CASEClient.counter l < CASEClient.max_requests.
Proof.
  unfold CASEClient.loop_test. intros H. apply andb_true_iff in H as [Hd Hc].
  split; [now destruct (CASEClient.done l) | now apply Z.ltb_lt].
Qed.

Lemma loop_body_progress (l l' : CASEClient.Locals) (w w' : World) :
  CASEClient.loop_test l = true ->
  CASEClient.loop_body E l w = (Return l', w') ->
  (fuel_needed l' < fuel_needed l)%nat.
Proof.
  intros Htest Hbody. destruct (loop_test_inv l Htest) as [Hdone Hcounter].
  unfold fuel_needed at 2. rewrite Htest.
  destruct (loop_body_locals l l' w w' Hbody) as [[Hd Hc]|[Hd Hc]].
  - unfold fuel_needed. destruct (CASEClient.loop_test l'); [rewrite Hc|]; lia.
  - unfold fuel_needed. rewrite loop_test_false by (now left). lia.
Qed.



End NeverExhausts.


Section PageRequests.

Variable E : Env.











End PageRequests.


(** ** Fetching twice *)

Section FixedDataset.

Variable E : Env.
Hypothesis fixed : fixed_dataset (server E).

(** With a fixed dataset, a page that was refused is refused again after the
    token is renewed: the response that [get] goes on with is the first one. *)
Lemma reauthenticate_same_response (k : Z) (token : json) (h : list Request)
    (r r' : Response) (w w' : World) :
  let target := url (page_request E token k) in
  server E h (page_request E token k) = Responded r ->
  reauthenticate E target r w = (Return r', w') ->
  r' = r.
Proof.
  intros target Hr. unfold reauthenticate.
  destruct (CASEClient.unauthorized r); [|intros H; now inversion H].
  unfold bind at 1.
  destruct (CASEClient.is_authenticated E w) as [[live|e] w1]; [|discriminate].
  destruct live; cbn [negb]; [intros H; now inversion H|].
  unfold refresh_and_retry, bind, read.
  destruct (CASEClient.obtain_access_token E w1) as [[[]|e] w2]; [|discriminate].
  unfold CASEClient.requests_get, send.
  fold (resource_request E target (access_token w2)).
  change (resource_request E target (access_token w2))
    with (page_request E (access_token w2) k).
  rewrite (fixed (trace w2) h (page_request E (access_token w2) k)
             (page_request E token k)
             (page_request_is_page_request E _ k)
             (page_request_is_page_request E _ k) eq_refl).
  rewrite Hr. intros H. now inversion H.
Qed.

Lemma conclude_returned (target : string) (r : Response) (w : World) :
  returned (fst (conclude E target r w))
  = if ok r then returned (response_json r) else None.
Proof.
  unfold conclude. destruct (ok r) eqn:Hok; [reflexivity|].
  unfold bind, print, raise_for_status. rewrite Hok. reflexivity.
Qed.

(** What a page request returns is decided by the dataset alone. *)
Lemma get_page_returned (k : Z) (w0 w : World) :
  returned (fst (CASEClient.get E CASEClient.CFDocuments_endpoint
                   (Some (CASEClient.page_params k)) w))
  = returned (fst (CASEClient.get E CASEClient.CFDocuments_endpoint
                     (Some (CASEClient.page_params k)) w0)).
Proof.
  assert (Hone : forall v : World,
    returned (fst (CASEClient.get E CASEClient.CFDocuments_endpoint
                     (Some (CASEClient.page_params k)) v))
    = match server E [] (page_request E JNull k) with
      | Responded r =>
          if CASEClient.unauthorized r then None
          else if ok r then returned (response_json r) else None
      | TransportFailure => None
      end).
  { intros v. rewrite get_unfold. cbv zeta.
    fold (page_request E (access_token v) k).
    rewrite (fixed (trace v) [] (page_request E (access_token v) k)
               (page_request E JNull k)
               (page_request_is_page_request E _ k)
               (page_request_is_page_request E _ k) eq_refl).
    destruct (server E [] (page_request E JNull k)) as [r|] eqn:Hr; [|reflexivity].
    set (v1 := sent _ _). unfold get_from_response, bind.
    pose proof (reauthenticate_same_response k JNull [] r) as Hsame.
    cbv zeta in Hsame.
    change (url (page_request E JNull k))
      with (CASEClient.build_url E CASEClient.CFDocuments_endpoint
              (Some (CASEClient.page_params k))) in Hsame.
    destruct (reauthenticate E _ r v1) as [[r'|e] v2] eqn:Hre.
    - rewrite (Hsame r' v1 v2 Hr Hre). rewrite conclude_returned.
      destruct (CASEClient.unauthorized r) eqn:Hun; [|reflexivity].
      now rewrite (unauthorized_not_ok r Hun).
    - cbn [fst returned].
      destruct (CASEClient.unauthorized r) eqn:Hun; [reflexivity|].
      unfold reauthenticate in Hre. rewrite Hun in Hre. discriminate Hre. }
  now rewrite (Hone w), (Hone w0).
Qed.

Lemma loop_body_returned (l : CASEClient.Locals) (w0 w : World) :
  returned (fst (CASEClient.loop_body E l w))
  = returned (fst (CASEClient.loop_body E l w0)).
Proof.
  unfold CASEClient.loop_body, bind.
  pose proof (get_page_returned (CASEClient.counter l) w0 w) as H.
  destruct (CASEClient.get E _ _ w) as [[data|e] w1];
    destruct (CASEClient.get E _ _ w0) as [[data0|e0] w2];
    cbn [fst returned] in H; try discriminate H; [|reflexivity].
  inversion H. subst data0. unfold lift.
  destruct (getitem data "CFDocuments") as [chunk|e]; [|reflexivity].
  destruct (truthy chunk); [|reflexivity].
  destruct (extend (CASEClient.documents l) chunk); reflexivity.
Qed.

Lemma while_returned (fuel : nat) :
  forall (l : CASEClient.Locals) (w0 w : World),
    returned (fst (while fuel CASEClient.loop_test (CASEClient.loop_body E) l w))
    = returned (fst (while fuel CASEClient.loop_test (CASEClient.loop_body E) l w0)).
Proof.
  induction fuel as [|fuel IH]; intros l w0 w; [reflexivity|].
  cbn [while]. destruct (CASEClient.loop_test l); [|reflexivity].
  unfold bind. pose proof (loop_body_returned l w0 w) as H.
  destruct (CASEClient.loop_body E l w) as [[l1|e] w1];
    destruct (CASEClient.loop_body E l w0) as [[l2|e0] w2];
    cbn [fst returned] in H; try discriminate H; [|reflexivity].
  inversion H. subst l2. apply IH.
Qed.

Lemma get_documents_returned (fuel : nat) (w0 w : World) :
  returned (fst (CASEClient.get_documents E fuel w))
  = returned (fst (CASEClient.get_documents E fuel w0)).
Proof.
  unfold CASEClient.get_documents, bind.
  pose proof (while_returned fuel (CASEClient.mkLocals [] false 0) w0 w) as H.
  destruct (while fuel _ _ _ w) as [[l1|e] w1];
    destruct (while fuel _ _ _ w0) as [[l2|e0] w2];
    cbn [fst returned] in H; try discriminate H; [|reflexivity].
  inversion H. reflexivity.
Qed.

End FixedDataset.

(** C9. When the dataset is fixed, that is when the outcome of a page
    request depends on its URL alone, two calls of the paginator in a row
    give the same result: if the first returns a list of records, the second
    returns the same list in the same order, and if the first raises, so
    does the second. *)
Theorem fetching_twice_gives_the_same (E : Env) (w : World) (fuel : nat) :
  fixed_dataset (server E) ->
  let first := CASEClient.get_documents E fuel w in
  let second := CASEClient.get_documents E fuel (snd first) in
  returned (fst second) = returned (fst first) /\
  (forall docs, fst first = Return docs -> fst second = Return docs).
Proof.
  intros Hfixed first second.
  assert (H : returned (fst second) = returned (fst first))
    by apply (get_documents_returned E Hfixed fuel w (snd first)).
  split; [exact H|]. intros docs Hdocs. rewrite Hdocs in H.
  destruct (fst second); [now inversion H | discriminate H].
Qed.

Lemma three_records_fixed : fixed_dataset three_records.
Proof.
  intros h h' req req' _ _ Hurl. unfold three_records. now rewrite Hurl.
Qed.

Lemma fetching_twice_gives_the_same_witness :
  let E := env_of three_records in
  let first := CASEClient.get_documents E 11 (instance "id" "secret" "t") in
  let second := CASEClient.get_documents E 11 (snd first) in
  fst first = Return [record 1; record 2; record 3] /\
  fst second = Return [record 1; record 2; record 3].
Proof.
  intros E first second.
  destruct (fetching_twice_gives_the_same E (instance "id" "secret" "t") 11
              three_records_fixed) as [_ H].
  split; [reflexivity | exact (H _ eq_refl)].
Defined.

(** ** Page requests and requests on the wire *)

(** The bound of ten is on the page requests of the loop.  A page request
    that is refused and retried puts four requests on the wire, two of them
    GETs of the page: against [grudging] the ten page requests of a run are
    forty requests, twenty of them GETs of [/CFDocuments]. *)
Example refused_pages_are_asked_twice :
  let run := CASEClient.get_documents (env_of grudging) 11 (instance "id" "secret" "old") in
  returned (fst run) = Some (repeat (record 0) 10) /\
  get_lines (snd run) = 10%nat /\
  List.length (trace (snd run)) = 40%nat /\
  List.length (filter is_page_request (trace (snd run))) = 20%nat.
Proof. vm_compute. repeat split. Qed.

(** * Further properties of the client *)

(** ** [get] on the paths without a retry *)

(** The world that [get] leaves when it gives up on the response [r]: the
    two lines of lines 120 and 121 are printed. *)
Lemma conclude_error (E : Env) (target : string) (r : Response) (w : World) :
  ok r = false ->
  conclude E target r w
  = (Raise (HTTPError r),
     printed (PrintBytes (text r))
       (printed (PrintArgs [("Error " ++ CASEClient.str E (JNum (status_code r))
                             ++ " on GET " ++ target)%string]) w)).
Proof.
  intros Hok. unfold conclude. rewrite Hok.
  unfold bind, print, raise_for_status. rewrite Hok. reflexivity.
Qed.

(** X1.  A response that is an error but neither a 401 nor a 403 (a 404, a 500)
    fails the call at once: [get] raises the HTTP error of that response
    after its one request, without a liveness check and without a token
    request, and the stored token and credentials stay as they were. *)
Theorem get_raises_on_other_errors (E : Env) (path : string)
    (params : option (list (string * json))) (w : World) (r : Response) :
  let target := CASEClient.build_url E path params in
  let req := resource_request E target (access_token w) in
  let run := CASEClient.get E path params w in
  server E (trace w) req = Responded r ->
  ok r = false ->
  CASEClient.unauthorized r = false ->
  fst run = Raise (HTTPError r) /\
  trace (snd run) = trace w ++ [req] /\
  access_token (snd run) = access_token w /\
  client_id (snd run) = client_id w /\
  client_secret (snd run) = client_secret w.
Proof.
  intros target req run Hr Hok Hun.
  assert (Hrun : run
    = (Raise (HTTPError r),
       printed (PrintBytes (text r))
         (printed (PrintArgs [("Error " ++ CASEClient.str E (JNum (status_code r))
                               ++ " on GET " ++ target)%string])
            (sent req (printed (PrintArgs ["GET"; target]) w))))).
  { subst run. rewrite get_unfold. fold target req. rewrite Hr.
    unfold get_from_response, reauthenticate. rewrite Hun.
    unfold bind, ret. now rewrite conclude_error. }
  rewrite Hrun. repeat split; reflexivity.
Qed.

Lemma get_raises_on_other_errors_witness :
  let E := env_of (constant (status_response 500 "boom")) in
  let run := CASEClient.get E "/CFDocuments" None (instance "id" "secret" "t") in
  fst run = Raise (HTTPError (status_response 500 "boom")) /\
  List.length (trace (snd run)) = 1%nat.
Proof.
  intros E run.
  destruct (get_raises_on_other_errors E "/CFDocuments" None
              (instance "id" "secret" "t") (status_response 500 "boom")
              eq_refl eq_refl eq_refl) as [Hres [Htrace _]].
  split; [exact Hres|]. fold run in Htrace. rewrite Htrace. reflexivity.
Defined.

(** X2.  A 401 or 403 for a token that the liveness check accepts is final: no
    token is requested and the GET is not repeated; [get] raises the HTTP
    error of the first response after two requests. *)
Theorem get_does_not_retry_with_live_token (E : Env) (path : string)
    (params : option (list (string * json))) (w : World) (r1 r2 : Response) :
  let target := CASEClient.build_url E path params in
  let req := resource_request E target (access_token w) in
  let check := check_request E (access_token w) in
  let run := CASEClient.get E path params w in
  server E (trace w) req = Responded r1 ->
  CASEClient.unauthorized r1 = true ->
  server E (trace w ++ [req]) check = Responded r2 ->
  ok r2 = true ->
  fst run = Raise (HTTPError r1) /\
  trace (snd run) = trace w ++ [req; check] /\
  access_token (snd run) = access_token w.
Proof.
  intros target req check run H1 Hun H2 Hok2.
  set (w1 := sent req (printed (PrintArgs ["GET"; target]) w)).
  assert (Hrun : run
    = (Raise (HTTPError r1),
       printed (PrintBytes (text r1))
         (printed (PrintArgs [("Error " ++ CASEClient.str E (JNum (status_code r1))
                               ++ " on GET " ++ target)%string])
            (sent check w1)))).
  { subst run. rewrite get_unfold. fold target req. rewrite H1. fold w1.
    unfold get_from_response, reauthenticate. rewrite Hun.
    unfold bind. rewrite is_authenticated_run.
    change (access_token w1) with (access_token w). fold check.
    change (trace w1) with (trace w ++ [req]). rewrite H2, Hok2. cbn [negb].
    unfold ret. now rewrite conclude_error by (now apply unauthorized_not_ok). }
  rewrite Hrun. cbn [fst snd trace access_token printed sent w1].
  rewrite <- app_assoc. repeat split; reflexivity.
Qed.

Lemma get_does_not_retry_with_live_token_witness :
  let E := env_of (scripted [Responded (status_response 403 "forbidden");
                             Responded (status_response 200 "live")]) in
  let run := CASEClient.get E "/CFDocuments" None (instance "id" "secret" "t") in
  fst run = Raise (HTTPError (status_response 403 "forbidden")) /\
  List.length (trace (snd run)) = 2%nat.
Proof.
  intros E run.
  destruct (get_does_not_retry_with_live_token E "/CFDocuments" None
              (instance "id" "secret" "t") (status_response 403 "forbidden")
              (status_response 200 "live") eq_refl eq_refl eq_refl eq_refl)
    as [Hres [Htrace _]].
  split; [exact Hres|]. fold run in Htrace. rewrite Htrace. reflexivity.
Defined.

(** X3.  When the token is dead and the token endpoint refuses the credentials,
    the failed assertion of [obtain_access_token] leaves [get]: the GET is
    not repeated, the requests of the call are three, and the stale token
    stays stored. *)
Theorem get_propagates_failed_refresh (E : Env) (path : string)
    (params : option (list (string * json))) (w : World)
    (id secret : string) (r1 r2 r3 : Response) :
  let target := CASEClient.build_url E path params in
  let req := resource_request E target (access_token w) in
  let check := check_request E (access_token w) in
  let post := token_request id secret in
  let run := CASEClient.get E path params w in
  client_id w = JStr id ->
  client_secret w = JStr secret ->
  forallb is_ascii (list_ascii_of_string ((id ++ ":") ++ secret)%string) = true ->
  server E (trace w) req = Responded r1 -> CASEClient.unauthorized r1 = true ->
  server E (trace w ++ [req]) check = Responded r2 -> ok r2 = false ->
  server E (trace w ++ [req; check]) post = Responded r3 -> ok r3 = false ->
  fst run = Raise (AssertionError ("Failed to get access_token." ++ text r3)%string) /\
  trace (snd run) = trace w ++ [req; check; post] /\
  access_token (snd run) = access_token w.
Proof.
  intros target req check post run Hid Hsecret Hascii H1 Hun H2 Hok2 H3 Hok3.
  set (w1 := sent req (printed (PrintArgs ["GET"; target]) w)).
  assert (Hrun : run
    = (Raise (AssertionError ("Failed to get access_token." ++ text r3)%string),
       sent post (printed (PrintArgs ["POST"; CLIENTOKEN_ENDPOINT]) (sent check w1)))).
  { subst run. rewrite get_unfold. fold target req. rewrite H1. fold w1.
    unfold get_from_response, reauthenticate, refresh_and_retry. rewrite Hun.
    unfold bind. rewrite is_authenticated_run.
    change (access_token w1) with (access_token w). fold check.
    change (trace w1) with (trace w ++ [req]). rewrite H2, Hok2. cbn [negb].
    rewrite (obtain_access_token_run E (sent check w1) id secret Hid Hsecret Hascii).
    cbv zeta. fold post.
    change (trace (sent check w1)) with ((trace w ++ [req]) ++ [check]).
    rewrite <- (app_assoc (trace w) [req] [check]). cbn [app].
    now rewrite H3, Hok3. }
  rewrite Hrun. cbn [fst snd trace access_token printed sent w1].
  rewrite <- !app_assoc. repeat split; reflexivity.
Qed.

Lemma get_propagates_failed_refresh_witness :
  let E := env_of (scripted [Responded (status_response 401 "expired");
                             Responded (status_response 401 "dead");
                             Responded (status_response 400 "invalid_client")]) in
  let run := CASEClient.get E "/CFDocuments" None (instance "id" "secret" "t") in
  fst run = Raise (AssertionError "Failed to get access_token.invalid_client") /\
  List.length (trace (snd run)) = 3%nat /\
  access_token (snd run) = JStr "t".
Proof.
  intros E run.
  destruct (get_propagates_failed_refresh E "/CFDocuments" None
              (instance "id" "secret" "t") "id" "secret"%string
              (status_response 401 "expired") (status_response 401 "dead")
              (status_response 400 "invalid_client")
              eq_refl eq_refl eq_refl eq_refl eq_refl eq_refl eq_refl eq_refl eq_refl)
    as [Hres [Htrace Htoken]].
  split; [exact Hres|]. fold run in Htrace, Htoken.
  split; [rewrite Htrace; reflexivity | exact Htoken].
Defined.

(** ** The token request in every case *)

Lemma obtain_access_token_not_str (E : Env) (w : World) :
  is_str (client_id w) && is_str (client_secret w) = false ->
  CASEClient.obtain_access_token E w = (Raise TypeError, w).
Proof.
  intros H. unfold CASEClient.obtain_access_token, bind, read, lift.
  destruct (client_id w) as [| | |id| |]; try reflexivity.
  destruct (client_secret w) as [| | |secret| |]; try reflexivity.
  discriminate H.
Qed.

Lemma obtain_access_token_not_ascii (E : Env) (w : World) (id secret : string) :
  client_id w = JStr id ->
  client_secret w = JStr secret ->
  forallb is_ascii (list_ascii_of_string ((id ++ ":") ++ secret)%string) = false ->
  CASEClient.obtain_access_token E w = (Raise UnicodeEncodeError, w).
Proof.
  intros Hid Hsecret Hascii.
  unfold CASEClient.obtain_access_token, bind, read, lift.
  rewrite Hid, Hsecret. cbn [str_add]. unfold encode_ascii. now rewrite Hascii.
Qed.

(** X4.  Credentials that are not both strings (a number or a list read from the
    credential file, or [None] on an instance whose credentials were never
    set) stop the token request at the concatenation of the header: a
    [TypeError], nothing printed, nothing sent, nothing changed. *)
Theorem token_request_needs_string_credentials (E : Env) (w : World) :
  is_str (client_id w) && is_str (client_secret w) = false ->
  CASEClient.obtain_access_token E w = (Raise TypeError, w).
Proof.
  intros H. unfold CASEClient.obtain_access_token, bind, read, lift.
  destruct (client_id w) as [| | |id| |]; try reflexivity.
  destruct (client_secret w) as [| | |secret| |]; try reflexivity.
  discriminate H.
Qed.

Lemma token_request_needs_string_credentials_witness :
  CASEClient.obtain_access_token (env_of (constant (token_response "fresh")))
    (mkWorld (JNum 42) (JStr "secret") JNull [] [])
  = (Raise TypeError, mkWorld (JNum 42) (JStr "secret") JNull [] []).
Proof.
  apply (token_request_needs_string_credentials
           (env_of (constant (token_response "fresh")))
           (mkWorld (JNum 42) (JStr "secret") JNull [] [])).
  reflexivity.
Defined.

Lemma obtain_access_token_effect (E : Env) (w : World) :
  let run := CASEClient.obtain_access_token E w in
  client_id (snd run) = client_id w /\
  client_secret (snd run) = client_secret w /\
  (trace (snd run) = trace w \/
   exists post, trace (snd run) = trace w ++ [post] /\ is_token_post post = true) /\
  (forall e, fst run = Raise e -> access_token (snd run) = access_token w) /\
  (fst run = Return tt ->
   exists post r body,
     trace (snd run) = trace w ++ [post] /\ is_token_post post = true /\
     server E (trace w) post = Responded r /\ ok r = true /\
     json_body r = Some body /\
     getitem body "access_token" = Return (access_token (snd run))).
Proof.
  intros run. subst run.
  destruct (is_str (client_id w) && is_str (client_secret w)) eqn:Hstr.
  2:{ rewrite obtain_access_token_not_str by exact Hstr.
      cbn [fst snd]. repeat split; auto; discriminate. }
  apply andb_true_iff in Hstr as [Hid Hsecret].
  destruct (client_id w) as [| | |id| |] eqn:Eid; try discriminate Hid.
  destruct (client_secret w) as [| | |secret| |] eqn:Esecret; try discriminate Hsecret.
  destruct (forallb is_ascii (list_ascii_of_string ((id ++ ":") ++ secret)%string))
    eqn:Hascii.
  2:{ rewrite (obtain_access_token_not_ascii E w id secret Eid Esecret Hascii).
      cbn [fst snd]. repeat split; auto; discriminate. }
  rewrite (obtain_access_token_run E w id secret Eid Esecret Hascii). cbv zeta.
  assert (Hpost : is_token_post (token_request id secret) = true) by reflexivity.
  destruct (server E (trace w) (token_request id secret)) as [r|] eqn:Hr.
  - destruct (ok r) eqn:Hok.
    + destruct (json_body r) as [body|] eqn:Hbody.
      * destruct (getitem body "access_token") as [token|e] eqn:Hget;
          cbn [fst snd client_id client_secret access_token trace sent printed];
          repeat split; eauto; try discriminate.
        intros _. exists (token_request id secret), r, body. repeat split; auto.
      * cbn [fst snd client_id client_secret access_token trace sent printed].
        repeat split; eauto; discriminate.
    + cbn [fst snd client_id client_secret access_token trace sent printed].
      repeat split; eauto; discriminate.
  - cbn [fst snd client_id client_secret access_token trace sent printed].
    repeat split; eauto; discriminate.
Qed.

(** X5.  The token request is all or nothing, for every server and every state
    of the client.  It never changes the credentials; it sends no request
    or exactly one, a POST to the token endpoint; when it raises, the stored
    token is the one from before; and when it returns, the stored token is
    the value of [access_token] in the JSON body of a successful response to
    that POST. *)
Theorem token_request_all_or_nothing (E : Env) (w : World) :
  let run := CASEClient.obtain_access_token E w in
  client_id (snd run) = client_id w /\
  client_secret (snd run) = client_secret w /\
  (trace (snd run) = trace w \/
   exists post, trace (snd run) = trace w ++ [post] /\ is_token_post post = true) /\
  (forall e, fst run = Raise e -> access_token (snd run) = access_token w) /\
  (fst run = Return tt ->
   exists post r body,
     trace (snd run) = trace w ++ [post] /\ is_token_post post = true /\
     server E (trace w) post = Responded r /\ ok r = true /\
     json_body r = Some body /\
     getitem body "access_token" = Return (access_token (snd run))).
Proof.
  intros run.
  destruct (obtain_access_token_effect E w)
    as [Hid [Hsecret [Htrace [Hraise Hreturn]]]].
  fold run in Hid, Hsecret, Htrace, Hraise, Hreturn.
  split; [exact Hid|]. split; [exact Hsecret|]. split; [exact Htrace|].
  split; [exact Hraise | exact Hreturn].
Qed.

Lemma token_request_all_or_nothing_witness :
  let E := env_of (constant (token_response "fresh")) in
  let run := CASEClient.obtain_access_token E (instance "id" "secret" "old") in
  client_id (snd run) = JStr "id" /\
  exists post r body,
    trace (snd run) = [post] /\ is_token_post post = true /\
    server E [] post = Responded r /\ ok r = true /\
    json_body r = Some body /\
    getitem body "access_token" = Return (access_token (snd run)).
Proof.
  intros E run.
  destruct (token_request_all_or_nothing E (instance "id" "secret" "old"))
    as [Hid [_ [_ [_ Hreturn]]]].
  split; [exact Hid | exact (Hreturn eq_refl)].
Defined.

(** X6.  A successful response of the token endpoint must carry the token: when
    its body is not JSON the call raises [ValueError]; when the body is a
    JSON object without the field [access_token] it raises
    [KeyError('access_token')]; when the body is JSON but not an object it
    raises [TypeError].  In each case the request has been sent and the
    stored token is the one from before. *)
Theorem token_response_must_carry_token (E : Env) (w : World) (id secret : string)
    (r : Response) :
  let post := token_request id secret in
  let run := CASEClient.obtain_access_token E w in
  client_id w = JStr id ->
  client_secret w = JStr secret ->
  forallb is_ascii (list_ascii_of_string ((id ++ ":") ++ secret)%string) = true ->
  server E (trace w) post = Responded r ->
  ok r = true ->
  (json_body r = None -> fst run = Raise ValueError) /\
  (forall fields, json_body r = Some (JObj fields) ->
     lookup "access_token" fields = None ->
     fst run = Raise (KeyError "access_token")) /\
  (forall body, json_body r = Some body -> (forall fields, body <> JObj fields) ->
     fst run = Raise TypeError) /\
  (fst run <> Return tt ->
   trace (snd run) = trace w ++ [post] /\ access_token (snd run) = access_token w).
Proof.
  intros post run Hid Hsecret Hascii Hr Hok. subst run.
  rewrite (obtain_access_token_run E w id secret Hid Hsecret Hascii). cbv zeta.
  fold post. rewrite Hr, Hok.
  split; [intros Hb; now rewrite Hb|].
  split; [intros fields Hb Hl; rewrite Hb; cbn [getitem]; now rewrite Hl|].
  split.
  - intros body Hb Hnot. rewrite Hb.
    destruct body; try reflexivity. now elim (Hnot fields).
  - destruct (json_body r) as [body|].
    + destruct (getitem body "access_token"); [intros H; now elim H|].
      intros _. split; reflexivity.
    + intros _. split; reflexivity.
Qed.

Lemma token_response_must_carry_token_witness :
  let w := instance "id" "secret" "old" in
  fst (CASEClient.obtain_access_token
         (env_of (constant (mkResponse 200 "{}" (Some (JObj [])))) ) w)
  = Raise (KeyError "access_token") /\
  fst (CASEClient.obtain_access_token
         (env_of (constant (status_response 200 "<html>"))) w)
  = Raise ValueError /\
  access_token (snd (CASEClient.obtain_access_token
         (env_of (constant (status_response 200 "<html>"))) w)) = JStr "old".
Proof.
  intros w.
  destruct (token_response_must_carry_token
              (env_of (constant (mkResponse 200 "{}" (Some (JObj [])))))
              w "id" "secret"%string (mkResponse 200 "{}" (Some (JObj [])))
              eq_refl eq_refl eq_refl eq_refl eq_refl) as [_ [Hkey _]].
  destruct (token_response_must_carry_token
              (env_of (constant (status_response 200 "<html>")))
              w "id" "secret"%string (status_response 200 "<html>")
              eq_refl eq_refl eq_refl eq_refl eq_refl) as [Hvalue [_ [_ Hkept]]].
  split; [exact (Hkey [] eq_refl eq_refl)|].
  split; [exact (Hvalue eq_refl)|].
  apply Hkept. rewrite (Hvalue eq_refl). discriminate.
Defined.

(** ** What a whole run preserves *)

Section Steps.

Variable E : Env.
Variable R : World -> World -> Prop.
Hypothesis R_refl : forall w, R w w.
Hypothesis R_trans : forall a b c, R a b -> R b c -> R a c.
Hypothesis R_sent : forall req w, R w (sent req w).
Hypothesis R_printed : forall p w, R w (printed p w).
Hypothesis R_obtain : keeps R (CASEClient.obtain_access_token E).

Lemma step_get_from_response (target : string) (r1 : Response) :
  keeps R (get_from_response E target r1).
Proof.
  unfold get_from_response.
  apply keeps_bind; [exact R_trans | |].
  - unfold reauthenticate.
    destruct (CASEClient.unauthorized r1); [|now apply keeps_ret].
    apply keeps_bind; [exact R_trans | |].
    + intros w. rewrite is_authenticated_run.
      destruct (server E (trace w) _); apply R_sent.
    + intros live. destruct live; cbn [negb]; [now apply keeps_ret|].
      unfold refresh_and_retry.
      apply keeps_bind; [exact R_trans | exact R_obtain | intros _].
      apply keeps_bind; [exact R_trans | now apply keeps_read | intros t].
      now apply keeps_send.
  - intros r. apply keeps_conclude; auto.
Qed.

Lemma step_get (path : string) (params : option (list (string * json))) :
  keeps R (CASEClient.get E path params).
Proof.
  intros w. rewrite get_unfold. cbv zeta.
  set (w1 := sent _ _).
  assert (H1 : R w w1).
  { subst w1. eapply R_trans; [apply R_printed | apply R_sent]. }
  destruct (server E (trace w) _) as [r|]; [|exact H1].
  eapply R_trans; [exact H1 | apply step_get_from_response].
Qed.

Lemma step_loop_body (l : CASEClient.Locals) : keeps R (CASEClient.loop_body E l).
Proof.
  unfold CASEClient.loop_body.
  apply keeps_bind; [exact R_trans | apply step_get | intros data].
  apply keeps_bind; [exact R_trans | now apply keeps_lift | intros chunk].
  destruct (truthy chunk); [|now apply keeps_ret].
  apply keeps_bind; [exact R_trans | now apply keeps_lift | intros d].
  now apply keeps_ret.
Qed.

Lemma step_while (fuel : nat) :
  forall l, keeps R (while fuel CASEClient.loop_test (CASEClient.loop_body E) l).
Proof.
  induction fuel as [|fuel IH]; intros l; cbn [while].
  - now apply keeps_raise.
  - destruct (CASEClient.loop_test l); [|now apply keeps_ret].
    apply keeps_bind; [exact R_trans | apply step_loop_body | exact IH].
Qed.

Lemma step_get_documents (fuel : nat) : keeps R (CASEClient.get_documents E fuel).
Proof.
  unfold CASEClient.get_documents.
  apply keeps_bind; [exact R_trans | apply step_while | intros l].
  now apply keeps_ret.
Qed.

End Steps.

(** ** Where the stored token comes from *)

Lemma honest_step_refl (E : Env) (w : World) : honest_step E w w.
Proof.
  repeat split; [exists []; now rewrite app_nil_r | now left].
Qed.

Lemma honest_step_trans (E : Env) (a b c : World) :
  honest_step E a b -> honest_step E b c -> honest_step E a c.
Proof.
  intros [Hid1 [Hs1 [[m1 Ht1] Htok1]]] [Hid2 [Hs2 [[m2 Ht2] Htok2]]].
  split; [congruence|]. split; [congruence|].
  split; [exists (m1 ++ m2); now rewrite Ht2, Ht1, app_assoc|].
  destruct Htok2 as [Hsame|Hissued].
  - destruct Htok1 as [Hsame1|Hissued1]; [left; congruence|].
    right. rewrite Hsame.
    destruct Hissued1 as [h [post [rest [r [body [Hh [Hlen Hrest]]]]]]].
    exists h, post, (rest ++ m2), r, body.
    split; [rewrite Ht2, Hh, <- app_assoc; reflexivity|].
    split; [exact Hlen | exact Hrest].
  - right.
    destruct Hissued as [h [post [rest [r [body [Hh [Hlen Hrest]]]]]]].
    exists h, post, rest, r, body.
    split; [exact Hh|]. split; [|exact Hrest].
    rewrite Ht1, length_app in Hlen. lia.
Qed.

Lemma honest_step_sent (E : Env) (req : Request) (w : World) :
  honest_step E w (sent req w).
Proof. repeat split; [now exists [req] | now left]. Qed.

Lemma honest_step_printed (E : Env) (p : Printed) (w : World) :
  honest_step E w (printed p w).
Proof. repeat split; [exists []; cbn; now rewrite app_nil_r | now left]. Qed.

Lemma honest_step_obtain (E : Env) :
  keeps (honest_step E) (CASEClient.obtain_access_token E).
Proof.
  intros w.
  destruct (obtain_access_token_effect E w) as [Hid [Hsecret [Htrace [Hraise Hreturn]]]].
  split; [exact Hid|]. split; [exact Hsecret|]. split.
  - destruct Htrace as [H|[post [H _]]];
      [exists []; now rewrite H, app_nil_r | now exists [post]].
  - destruct (fst (CASEClient.obtain_access_token E w)) as [[]|e] eqn:Hres.
    + right. destruct (Hreturn eq_refl) as [post [r [body [Ht [Hp [Hr [Hok [Hb Hg]]]]]]]].
      exists (trace w), post, [], r, body. repeat split; auto.
    + left. now apply (Hraise e).
Qed.

(** X7.  For every server and every state of the client, a run of the paginator
    keeps the credentials, only adds to the trace, and leaves as stored
    token either the one it started with or one that the token endpoint
    issued during the run, in the JSON body of a successful response to a
    token request. *)
Theorem paginator_token_comes_from_endpoint (E : Env) (w : World) (fuel : nat) :
  let run := CASEClient.get_documents E fuel w in
  client_id (snd run) = client_id w /\
  client_secret (snd run) = client_secret w /\
  (exists more, trace (snd run) = trace w ++ more) /\
  (access_token (snd run) = access_token w \/
   issued_between E w (snd run) (access_token (snd run))).
Proof.
  intros run.
  assert (H : honest_step E w (snd run)).
  { apply (step_get_documents E (honest_step E));
      first [ exact (honest_step_refl E) | exact (honest_step_trans E)
            | exact (honest_step_sent E) | exact (honest_step_printed E)
            | exact (honest_step_obtain E) ]. }
  exact H.
Qed.

(** The same holds for a single call of [get], whatever its path and
    parameters and however it ends. *)
Lemma get_token_comes_from_endpoint (E : Env) (path : string)
    (params : option (list (string * json))) (w : World) :
  let run := CASEClient.get E path params w in
  client_id (snd run) = client_id w /\
  client_secret (snd run) = client_secret w /\
  (exists more, trace (snd run) = trace w ++ more) /\
  (access_token (snd run) = access_token w \/
   issued_between E w (snd run) (access_token (snd run))).
Proof.
  intros run.
  assert (H : honest_step E w (snd run)).
  { apply (step_get E (honest_step E));
      first [ exact (honest_step_refl E) | exact (honest_step_trans E)
            | exact (honest_step_sent E) | exact (honest_step_printed E)
            | exact (honest_step_obtain E) ]. }
  exact H.
Qed.

(** ** The requests of a call, for every server *)

Lemma conclude_trace (E : Env) (target : string) (r : Response) (w : World) :
  trace (snd (conclude E target r w)) = trace w.
Proof.
  destruct (ok r) eqn:Hok.
  - unfold conclude. now rewrite Hok.
  - now rewrite conclude_error.
Qed.

Lemma conclude_token (E : Env) (target : string) (r : Response) (w : World) :
  access_token (snd (conclude E target r w)) = access_token w.
Proof.
  destruct (ok r) eqn:Hok.
  - unfold conclude. now rewrite Hok.
  - now rewrite conclude_error.
Qed.

Lemma reauthenticate_wire (E : Env) (target : string) (r1 : Response) (w : World) :
  exists more,
    trace (snd (reauthenticate E target r1 w)) = trace w ++ more /\
    wire_after E target (access_token w)
      (access_token (snd (reauthenticate E target r1 w))) more.
Proof.
  unfold reauthenticate.
  destruct (CASEClient.unauthorized r1).
  2:{ exists []. split; [cbn; now rewrite app_nil_r|].
      left. split; [reflexivity | now left]. }
  unfold bind at 1 2. rewrite is_authenticated_run.
  set (check := check_request E (access_token w)).
  destruct (server E (trace w) check) as [r2|].
  2:{ exists [check]. split; [reflexivity|].
      left. split; [reflexivity | right; now left]. }
  destruct (ok r2); cbn [negb].
  { exists [check]. split; [reflexivity|].
    left. split; [reflexivity | right; now left]. }
  unfold refresh_and_retry, bind.
  destruct (obtain_access_token_effect E (sent check w))
    as [_ [_ [Htrace [Hraise Hreturn]]]].
  destruct (CASEClient.obtain_access_token E (sent check w)) as [[[]|e] w2].
  - destruct (Hreturn eq_refl) as [post [r3 [body [Ht [Hpost _]]]]].
    cbn [snd trace sent] in Ht.
    exists [check; post; resource_request E target (access_token w2)].
    unfold read, CASEClient.requests_get, send.
    fold (resource_request E target (access_token w2)).
    destruct (server E (trace w2) _); cbn [snd trace access_token sent];
      (split; [rewrite Ht, <- !app_assoc; reflexivity|]);
      right; exists post; (split; [exact Hpost | reflexivity]).
  - cbn [fst snd] in *. specialize (Hraise e eq_refl). cbn [access_token sent] in Hraise.
    destruct Htrace as [Ht|[post [Ht Hpost]]]; cbn [trace sent] in Ht.
    + exists [check]. split; [exact Ht|].
      left. split; [exact Hraise | right; now left].
    + exists [check; post]. split; [rewrite Ht, <- app_assoc; reflexivity|].
      left. split; [exact Hraise|]. right. right. exists post. now split.
Qed.

Lemma token_post_is_post (req : Request) :
  is_token_post req = true -> method req = POST.
Proof. unfold is_token_post. destruct (method req); [discriminate | reflexivity]. Qed.

Lemma get_wire_shape (E : Env) (path : string)
    (params : option (list (string * json))) (w : World) :
  let target := CASEClient.build_url E path params in
  let first := resource_request E target (access_token w) in
  let run := CASEClient.get E path params w in
  exists more,
    trace (snd run) = trace w ++ first :: more /\
    wire_after E target (access_token w) (access_token (snd run)) more.
Proof.
  intros target first run. subst run. rewrite get_unfold. fold target first.
  destruct (server E (trace w) first) as [r1|].
  2:{ exists []. split; [reflexivity|]. left. split; [reflexivity | now left]. }
  set (w1 := sent first (printed (PrintArgs ["GET"; target]) w)).
  unfold get_from_response, bind.
  destruct (reauthenticate_wire E target r1 w1) as [more [Ht Hw]].
  change (access_token w1) with (access_token w) in Hw.
  exists more.
  destruct (reauthenticate E target r1 w1) as [[r|e] w2]; cbn [snd] in *.
  - rewrite conclude_trace, conclude_token, Ht. subst w1. cbn [trace sent printed].
    split; [now rewrite <- app_assoc | exact Hw].
  - rewrite Ht. subst w1. cbn [trace sent printed].
    split; [now rewrite <- app_assoc | exact Hw].
Qed.

(** X8.  The requests of one call of [get], for every server and every state of
    the client: first the GET of the URL with the stored token; then
    nothing more, or the liveness check of that token, or the check and one
    token request, or the check, one token request and the same GET once
    more, with the token that is stored when the call ends.  Unless the GET
    was repeated, the stored token is the one from the start.  So a call
    sends at least one and at most four requests, at most two of them GETs
    of the resource, and it never asks for a token twice. *)
Theorem get_wire_protocol (E : Env) (path : string)
    (params : option (list (string * json))) (w : World) :
  let target := CASEClient.build_url E path params in
  let first := resource_request E target (access_token w) in
  let check := check_request E (access_token w) in
  let run := CASEClient.get E path params w in
  exists more,
    trace (snd run) = trace w ++ first :: more /\
    ((access_token (snd run) = access_token w /\
      (more = [] \/ more = [check] \/
       exists post, is_token_post post = true /\ more = [check; post])) \/
     (exists post, is_token_post post = true /\
        more = [check; post; resource_request E target (access_token (snd run))])) /\
    (List.length (first :: more) <= 4)%nat /\
    (List.length (filter (is_resource_get target) (first :: more)) <= 2)%nat /\
    (List.length (filter is_token_post (first :: more)) <= 1)%nat.
Proof.
  intros target first check run.
  destruct (get_wire_shape E path params w) as [more [Ht Hw]].
  fold target first run in Ht, Hw. exists more.
  split; [exact Ht|]. split; [exact Hw|].
  assert (Hfirst : is_resource_get target first = true).
  { unfold is_resource_get, first. cbn [method url resource_request].
    apply String.eqb_refl. }
  assert (Hcheck : is_resource_get target check = false)
    by apply check_is_not_resource.
  assert (Hposts : forall post, is_token_post post = true ->
            is_resource_get target post = false).
  { intros post Hp. unfold is_resource_get. now rewrite (token_post_is_post post Hp). }
  assert (Hagain : is_resource_get target
                     (resource_request E target (access_token (snd run))) = true).
  { unfold is_resource_get. cbn [method url resource_request].
    apply String.eqb_refl. }
  assert (Hnot : is_token_post (resource_request E target (access_token (snd run)))
                 = false) by reflexivity.
  assert (Hnot' : is_token_post check = false) by reflexivity.
  assert (Hfirst' : is_token_post first = false) by reflexivity.
  destruct Hw as [[_ [Hm|[Hm|[post [Hp Hm]]]]]|[post [Hp Hm]]]; rewrite Hm;
    cbn [List.length filter]; rewrite Hfirst, Hfirst'.
  - cbn [List.length]. repeat split; lia.
  - fold check. rewrite Hcheck, Hnot'. cbn [List.length]. repeat split; lia.
  - fold check. rewrite Hcheck, Hnot', (Hposts post Hp), Hp. cbn [List.length].
    repeat split; lia.
  - fold check. rewrite Hcheck, Hnot', (Hposts post Hp), Hp, Hagain, Hnot.
    cbn [List.length]. repeat split; lia.
Qed.

Lemma check_is_not_page_request (E : Env) (token : json) :
  is_page_request (check_request E token) = false.
Proof. reflexivity. Qed.

Lemma token_post_is_not_page_request (post : Request) :
  is_token_post post = true -> is_page_request post = false.
Proof.
  intros Hp. unfold is_page_request. now rewrite (token_post_is_post post Hp).
Qed.

Lemma loop_body_trace (E : Env) (l : CASEClient.Locals) (w : World) :
  trace (snd (CASEClient.loop_body E l w))
  = trace (snd (CASEClient.get E CASEClient.CFDocuments_endpoint
                  (Some (CASEClient.page_params (CASEClient.counter l))) w)).
Proof.
  unfold CASEClient.loop_body, bind, lift, ret.
  destruct (CASEClient.get E _ _ w) as [[data|e] w1]; [|reflexivity].
  destruct (getitem data "CFDocuments") as [chunk|e]; [|reflexivity].
  destruct (truthy chunk); [|reflexivity].
  destruct (extend (CASEClient.documents l) chunk); reflexivity.
Qed.

Lemma loop_body_wire (E : Env) (l : CASEClient.Locals) (w : World) :
  exists more,
    trace (snd (CASEClient.loop_body E l w)) = trace w ++ more /\
    (1 <= List.length more <= 4)%nat /\
    (List.length (filter is_page_request more) <= 2)%nat /\
    Forall (paginator_request E (CASEClient.counter l)) more.
Proof.
  rewrite loop_body_trace.
  destruct (get_wire_shape E CASEClient.CFDocuments_endpoint
              (Some (CASEClient.page_params (CASEClient.counter l))) w)
    as [more [Ht Hw]].
  cbv zeta in Ht, Hw.
  fold (page_request E (access_token w) (CASEClient.counter l)) in Ht.
  set (k := CASEClient.counter l) in *.
  exists (page_request E (access_token w) k :: more). split; [exact Ht|].
  assert (Hpage : forall token, paginator_request E k (page_request E token k))
    by (intros token; left; eauto).
  assert (Hcheck : forall token, paginator_request E k (check_request E token))
    by (intros token; right; left; eauto).
  assert (Hpost : forall post, is_token_post post = true -> paginator_request E k post)
    by (intros post Hp; right; right; exact Hp).
  destruct Hw as [[_ [Hm|[Hm|[post [Hp Hm]]]]]|[post [Hp Hm]]]; rewrite Hm;
    cbn [List.length filter]; rewrite page_request_is_page_request.
  - cbn [List.length]. repeat split; try lia.
    repeat (apply Forall_cons; [auto|]). apply Forall_nil.
  - rewrite check_is_not_page_request. cbn [List.length]. repeat split; try lia.
    repeat (apply Forall_cons; [auto|]). apply Forall_nil.
  - rewrite check_is_not_page_request, (token_post_is_not_page_request post Hp).
    cbn [List.length]. repeat split; try lia.
    repeat (apply Forall_cons; [auto|]). apply Forall_nil.
  - match goal with
    | |- context [resource_request E ?u ?t] =>
        change (resource_request E u t) with (page_request E t k)
    end.
    rewrite check_is_not_page_request, (token_post_is_not_page_request post Hp),
      page_request_is_page_request.
    cbn [List.length]. repeat split; try lia.
    repeat (apply Forall_cons; [auto|]). apply Forall_nil.
Qed.

Lemma while_wire (E : Env) (fuel : nat) :
  forall (l : CASEClient.Locals) (w : World),
    exists more,
      trace (snd (while fuel CASEClient.loop_test (CASEClient.loop_body E) l w))
      = trace w ++ more /\
      (List.length more + 4 <= 4 * fuel_needed l)%nat /\
      (List.length (filter is_page_request more) + 2 <= 2 * fuel_needed l)%nat /\
      Forall (fun req => exists k,
                CASEClient.counter l <= k < CASEClient.max_requests /\
                paginator_request E k req) more.
Proof.
  induction fuel as [|fuel IH]; intros l w.
  - exists []. cbn [while]. pose proof (fuel_needed_positive l).
    split; [cbn; now rewrite app_nil_r|]. cbn [List.length filter].
    repeat split; try lia. constructor.
  - cbn [while]. destruct (CASEClient.loop_test l) eqn:Htest.
    2:{ exists []. pose proof (fuel_needed_positive l).
        split; [cbn; now rewrite app_nil_r|]. cbn [List.length filter].
        repeat split; try lia. constructor. }
    destruct (loop_test_inv l Htest) as [_ Hcounter].
    destruct (loop_body_wire E l w) as [m1 [Ht1 [Hlen1 [Hpages1 Hall1]]]].
    assert (Hall1' : Forall (fun req => exists k,
                CASEClient.counter l <= k < CASEClient.max_requests /\
                paginator_request E k req) m1).
    { eapply Forall_impl; [|exact Hall1]. intros req Hreq.
      exists (CASEClient.counter l). split; [lia | exact Hreq]. }
    assert (Hneed : (2 <= fuel_needed l)%nat).
    { unfold fuel_needed. rewrite Htest. unfold CASEClient.max_requests in *. lia. }
    unfold bind.
    destruct (CASEClient.loop_body E l w) as [[l'|e] w'] eqn:Hbody; cbn [snd] in *.
    + pose proof (loop_body_progress E l l' w w' Htest Hbody) as Hprogress.
      destruct (IH l' w') as [m2 [Ht2 [Hlen2 [Hpages2 Hall2]]]].
      exists (m1 ++ m2). split; [rewrite Ht2, Ht1, app_assoc; reflexivity|].
      rewrite filter_app, !length_app.
      split; [lia|]. split; [lia|].
      apply Forall_app. split; [exact Hall1'|].
      eapply Forall_impl; [|exact Hall2]. intros req [k [Hk Hreq]].
      exists k. split; [|exact Hreq].
      destruct (loop_body_locals E l l' w w' Hbody) as [[_ Hc]|[_ Hc]]; lia.
    + exists m1. split; [exact Ht1|]. split; [lia|]. split; [lia | exact Hall1'].
Qed.







(** X9.  What the paginator puts on the wire, for every server and every state
    of the client.  Every request of a run is a page request for one of the
    ten counters 0 to 9 (offsets 0 to 450, limit 50), a liveness check, or a
    token request; a run sends at most forty requests, and at most twenty of
    them are GETs of [/CFDocuments]. *)
Theorem paginator_wire_bounds (E : Env) (w : World) (fuel : nat) :
  let run := CASEClient.get_documents E fuel w in
  exists more,
    trace (snd run) = trace w ++ more /\
    (List.length more <= 40)%nat /\
    (List.length (filter is_page_request more) <= 20)%nat /\
    Forall (fun req => exists k, 0 <= k < 10 /\ paginator_request E k req) more.
Proof.
  intros run. subst run. unfold CASEClient.get_documents, bind.
  destruct (while_wire E fuel (CASEClient.mkLocals [] false 0) w)
    as [more [Ht [Hlen [Hpages Hall]]]].
  change (fuel_needed (CASEClient.mkLocals [] false 0)) with 11%nat in Hlen, Hpages.
  exists more.
  destruct (while fuel _ _ _ w) as [[l|e] w']; cbn [snd ret] in *;
    (split; [exact Ht|]); (split; [lia|]); (split; [lia|]); exact Hall.
Qed.

(** ** The credential file and the constructor *)

(** X10.  Reading the credential file (no usable explicit pair, the file exists)
    sends no request and leaves the token alone, and it has three ways to
    fail.  When the file cannot be read or parsed, the exception leaves the
    call and the credentials are untouched; so too when the parsed value has
    no [client_id] (a [KeyError]) or is not an object (a [TypeError]).  But
    when it has a [client_id] and no [client_secret], the call raises after
    it has already stored the identifier of the file: the instance is left
    with the new identifier and the old secret. *)
Theorem credential_file_failures (E : Env) (id secret : json) (w : World) :
  truthy id && truthy secret = false ->
  path_exists E = true ->
  let run := CASEClient.set_credentials E id secret w in
  trace (snd run) = trace w /\
  access_token (snd run) = access_token w /\
  (forall e, load_credentials E = Raise e ->
     fst run = Raise e /\
     client_id (snd run) = client_id w /\ client_secret (snd run) = client_secret w) /\
  (forall credentials e, load_credentials E = Return credentials ->
     getitem credentials "client_id" = Raise e ->
     fst run = Raise e /\
     client_id (snd run) = client_id w /\ client_secret (snd run) = client_secret w) /\
  (forall credentials file_id e, load_credentials E = Return credentials ->
     getitem credentials "client_id" = Return file_id ->
     getitem credentials "client_secret" = Raise e ->
     fst run = Raise e /\
     client_id (snd run) = file_id /\ client_secret (snd run) = client_secret w).
Proof.
  intros Hpair Hfile run. subst run.
  unfold CASEClient.set_credentials. rewrite Hpair, Hfile.
  unfold bind, print, lift, set_client_id, set_client_secret.
  split; [|split; [|split; [|split]]].
  - destruct (load_credentials E) as [credentials|e0]; [|reflexivity].
    destruct (getitem credentials "client_id") as [file_id|e1]; [|reflexivity].
    destruct (getitem credentials "client_secret"); reflexivity.
  - destruct (load_credentials E) as [credentials|e0]; [|reflexivity].
    destruct (getitem credentials "client_id") as [file_id|e1]; [|reflexivity].
    destruct (getitem credentials "client_secret"); reflexivity.
  - intros e Hload. rewrite Hload. repeat split; reflexivity.
  - intros credentials e Hload Hid. rewrite Hload, Hid. repeat split; reflexivity.
  - intros credentials file_id e Hload Hid Hsecret. rewrite Hload, Hid.
    cbn [fst snd]. rewrite Hsecret. repeat split; reflexivity.
Qed.

Lemma credential_file_failures_witness :
  let E := env_with_file unreachable (JObj [("client_id", JStr "file-id")]) in
  let run := CASEClient.set_credentials E JNull JNull (instance "id" "secret" "t") in
  fst run = Raise (KeyError "client_secret") /\
  client_id (snd run) = JStr "file-id" /\
  client_secret (snd run) = JStr "secret".
Proof.
  intros E run.
  destruct (credential_file_failures E JNull JNull (instance "id" "secret" "t")
              eq_refl eq_refl) as [_ [_ [_ [_ Hhalf]]]].
  exact (Hhalf _ _ _ eq_refl eq_refl eq_refl).
Defined.

(** X11.  The constructor does not insist on a live token.  With explicit
    credentials (two non-empty ASCII strings) and a token endpoint that
    issues a token, [__init__] returns whatever the liveness check answers:
    a refusal only leaves out the line that announces success.  The
    requests are the token request and the liveness check of the new token,
    and the new token is stored. *)
Theorem constructor_accepts_dead_token (E : Env) (w : World) (id secret : string)
    (r body token : _) (r2 : Response) :
  let post := token_request id secret in
  let check := check_request E token in
  let run := CASEClient.__init__ E (JStr id) (JStr secret) w in
  id <> EmptyString ->
  secret <> EmptyString ->
  forallb is_ascii (list_ascii_of_string ((id ++ ":") ++ secret)%string) = true ->
  server E (trace w) post = Responded r ->
  ok r = true ->
  json_body r = Some body ->
  getitem body "access_token" = Return token ->
  server E (trace w ++ [post]) check = Responded r2 ->
  fst run = Return tt /\
  trace (snd run) = trace w ++ [post; check] /\
  access_token (snd run) = token /\
  stdout (snd run)
  = stdout w ++ PrintArgs ["POST"; CLIENTOKEN_ENDPOINT]
      :: (if ok r2 then [PrintArgs ["Client successfully authenticated."]] else []).
Proof.
  intros post check run Hid Hsecret Hascii Hr Hok Hbody Htoken Hr2.
  assert (Htruthy : truthy (JStr id) && truthy (JStr secret) = true).
  { cbn [truthy]. apply andb_true_iff. split; apply negb_true_iff;
      apply String.eqb_neq; assumption. }
  set (w1 := mkWorld (JStr id) (JStr secret) (access_token w) (trace w) (stdout w)).
  assert (Hrun : run
    = (Return tt,
       mkWorld (JStr id) (JStr secret) token (trace w ++ [post; check])
         (stdout w ++ PrintArgs ["POST"; CLIENTOKEN_ENDPOINT]
            :: (if ok r2 then [PrintArgs ["Client successfully authenticated."]]
                else [])))).
  { subst run. unfold CASEClient.__init__, bind.
    rewrite (set_credentials_explicit E (JStr id) (JStr secret) w Htruthy).
    fold w1. cbv beta iota.
    rewrite (obtain_access_token_run E w1 id secret eq_refl eq_refl Hascii).
    cbv zeta. fold post. change (trace w1) with (trace w).
    rewrite Hr, Hok, Hbody, Htoken. cbv beta iota.
    rewrite is_authenticated_run.
    cbn [access_token trace sent printed stdout w1 client_id client_secret].
    fold check. rewrite Hr2.
    destruct (ok r2); unfold print, ret, printed, sent;
      cbn [stdout trace access_token client_id client_secret];
      rewrite <- !app_assoc; reflexivity. }
  rewrite Hrun. repeat split; reflexivity.
Qed.

Lemma constructor_accepts_dead_token_witness :
  let E := env_of (scripted [Responded (token_response "fresh");
                             Responded (status_response 401 "dead")]) in
  let run := CASEClient.__init__ E (JStr "id") (JStr "secret") new_instance in
  fst run = Return tt /\
  access_token (snd run) = JStr "fresh" /\
  stdout (snd run) = [PrintArgs ["POST"; CLIENTOKEN_ENDPOINT]].
Proof.
  intros E run.
  assert (Hid : "id"%string <> EmptyString) by discriminate.
  assert (Hsecret : "secret"%string <> EmptyString) by discriminate.
  destruct (constructor_accepts_dead_token E new_instance "id" "secret"%string
              (token_response "fresh") (JObj [("access_token", JStr "fresh")])
              (JStr "fresh") (status_response 401 "dead")
              Hid Hsecret eq_refl eq_refl eq_refl eq_refl eq_refl eq_refl)
    as [Hres [_ [Htoken Hout]]].
  split; [exact Hres|]. split; [exact Htoken | exact Hout].
Defined.

(** X12.  When the token endpoint refuses the explicit credentials, the
    constructor raises the failed assertion with the body of the response:
    no liveness check is made and no token is stored. *)
Theorem constructor_raises_when_token_refused (E : Env) (w : World)
    (id secret : string) (r : Response) :
  let post := token_request id secret in
  let run := CASEClient.__init__ E (JStr id) (JStr secret) w in
  id <> EmptyString ->
  secret <> EmptyString ->
  forallb is_ascii (list_ascii_of_string ((id ++ ":") ++ secret)%string) = true ->
  server E (trace w) post = Responded r ->
  ok r = false ->
  fst run = Raise (AssertionError ("Failed to get access_token." ++ text r)%string) /\
  trace (snd run) = trace w ++ [post] /\
  access_token (snd run) = access_token w.
Proof.
  intros post run Hid Hsecret Hascii Hr Hok.
  assert (Htruthy : truthy (JStr id) && truthy (JStr secret) = true).
  { cbn [truthy]. apply andb_true_iff. split; apply negb_true_iff;
      apply String.eqb_neq; assumption. }
  set (w1 := mkWorld (JStr id) (JStr secret) (access_token w) (trace w) (stdout w)).
  assert (Hrun : run
    = (Raise (AssertionError ("Failed to get access_token." ++ text r)%string),
       sent post (printed (PrintArgs ["POST"; CLIENTOKEN_ENDPOINT]) w1))).
  { subst run. unfold CASEClient.__init__, bind.
    rewrite (set_credentials_explicit E (JStr id) (JStr secret) w Htruthy).
    fold w1. cbv beta iota.
    rewrite (obtain_access_token_run E w1 id secret eq_refl eq_refl Hascii).
    cbv zeta. fold post. change (trace w1) with (trace w).
    now rewrite Hr, Hok. }
  rewrite Hrun. repeat split; reflexivity.
Qed.

Lemma constructor_raises_when_token_refused_witness :
  let E := env_of (constant (status_response 401 "invalid_client")) in
  let run := CASEClient.__init__ E (JStr "id") (JStr "secret") new_instance in
  fst run = Raise (AssertionError "Failed to get access_token.invalid_client") /\
  List.length (trace (snd run)) = 1%nat /\
  access_token (snd run) = JNull.
Proof.
  intros E run.
  assert (Hid : "id"%string <> EmptyString) by discriminate.
  assert (Hsecret : "secret"%string <> EmptyString) by discriminate.
  destruct (constructor_raises_when_token_refused E new_instance "id" "secret"%string
              (status_response 401 "invalid_client") Hid Hsecret eq_refl eq_refl eq_refl)
    as [Hres [Htrace Htoken]].
  split; [exact Hres|]. fold run in Htrace.
  split; [rewrite Htrace; reflexivity | exact Htoken].
Defined.

(** ** The paginator at the page where a run ends early *)

Lemma after_pages_trace (E : Env) (w : World) (n : nat) :
  trace (after_pages E w n)
  = trace w ++ map (page_request E (access_token w)) (map Z.of_nat (seq 0 n)).
Proof.
  induction n as [|n IH]; cbn [after_pages].
  - cbn. now rewrite app_nil_r.
  - cbn [trace sent printed]. rewrite IH, seq_S, !map_app, app_assoc. reflexivity.
Qed.

Lemma after_pages_token (E : Env) (w : World) (n : nat) :
  access_token (after_pages E w n) = access_token w.
Proof. induction n as [|n IH]; [reflexivity | exact IH]. Qed.

Lemma concat_firstn_S (pages : list (list json)) (j : nat) :
  (j < List.length pages)%nat ->
  List.concat (firstn (S j) pages) = List.concat (firstn j pages) ++ nth j pages [].
Proof.
  revert j. induction pages as [|p pages IH]; intros j Hj; [cbn in Hj; lia|].
  destruct j as [|j].
  - cbn. now rewrite app_nil_r.
  - cbn [List.length] in Hj.
    change (firstn (S (S j)) (p :: pages)) with (p :: firstn (S j) pages).
    change (firstn (S j) (p :: pages)) with (p :: firstn j pages).
    cbn [List.concat nth]. rewrite (IH j) by lia. now rewrite app_assoc.
Qed.

Lemma nth_nonempty (pages : list (list json)) (j : nat) :
  all_nonempty pages -> (j < List.length pages)%nat -> nth j pages [] <> [].
Proof.
  intros Hall Hj. unfold all_nonempty in Hall. rewrite Forall_forall in Hall.
  apply Hall. now apply nth_In.
Qed.

(** One turn of the loop on a successful response. *)
Lemma loop_body_ok (E : Env) (l : CASEClient.Locals) (w : World) (r : Response) :
  let req := page_request E (access_token w) (CASEClient.counter l) in
  server E (trace w) req = Responded r ->
  ok r = true ->
  CASEClient.loop_body E l w
  = (match response_json r with
     | Raise e => Raise e
     | Return body =>
         match getitem body "CFDocuments" with
         | Raise e => Raise e
         | Return chunk =>
             if truthy chunk then
               match extend (CASEClient.documents l) chunk with
               | Raise e => Raise e
               | Return documents' =>
                   Return (CASEClient.mkLocals documents' (CASEClient.done l)
                             (CASEClient.counter l + 1))
               end
             else Return (CASEClient.mkLocals (CASEClient.documents l) true
                            (CASEClient.counter l))
         end
     end,
     sent req (printed (PrintArgs ["GET"; url req]) w)).
Proof.
  intros req Hr Hok. unfold CASEClient.loop_body, bind at 1.
  rewrite get_unfold. cbv zeta.
  fold (page_request E (access_token w) (CASEClient.counter l)). fold req.
  rewrite Hr, get_from_response_ok by exact Hok.
  destruct (response_json r) as [body|e]; [|reflexivity].
  unfold bind, lift, ret.
  destruct (getitem body "CFDocuments") as [chunk|e]; [|reflexivity].
  destruct (truthy chunk); [|reflexivity].
  destruct (extend (CASEClient.documents l) chunk); reflexivity.
Qed.

(** One turn of the loop on a request that gets no usable response. *)
Lemma loop_body_fails (E : Env) (l : CASEClient.Locals) (w : World) :
  let req := page_request E (access_token w) (CASEClient.counter l) in
  let w1 := sent req (printed (PrintArgs ["GET"; url req]) w) in
  (server E (trace w) req = TransportFailure ->
   CASEClient.loop_body E l w = (Raise RequestException, w1)) /\
  (forall r, server E (trace w) req = Responded r ->
     ok r = false -> CASEClient.unauthorized r = false ->
     CASEClient.loop_body E l w
     = (Raise (HTTPError r),
        printed (PrintBytes (text r))
          (printed (PrintArgs [("Error " ++ CASEClient.str E (JNum (status_code r))
                                ++ " on GET " ++ url req)%string]) w1))).
Proof.
  intros req w1. split.
  - intros Hr. unfold CASEClient.loop_body, bind at 1.
    rewrite get_unfold. cbv zeta.
    fold (page_request E (access_token w) (CASEClient.counter l)). fold req.
    now rewrite Hr.
  - intros r Hr Hok Hun. unfold CASEClient.loop_body, bind at 1.
    rewrite get_unfold. cbv zeta.
    fold (page_request E (access_token w) (CASEClient.counter l)). fold req.
    rewrite Hr. unfold get_from_response, reauthenticate. rewrite Hun.
    unfold bind, ret. now rewrite conclude_error by exact Hok.
Qed.

Section EarlyEnd.

Variable E : Env.
Variable w : World.
Variable pages : list (list json).
Hypothesis first_pages : serves_first (server E) (trace w) pages.
Hypothesis nonempty : all_nonempty pages.
Hypothesis room : (List.length pages < 10)%nat.

(** The state of the loop after the pages of the list. *)
Let reached (j : nat) : CASEClient.Locals :=
  CASEClient.mkLocals (List.concat (firstn j pages)) false (Z.of_nat j).

Lemma while_prefix (j : nat) :
  (j <= List.length pages)%nat ->
  forall fuel,
    while (j + fuel) CASEClient.loop_test (CASEClient.loop_body E)
      (CASEClient.mkLocals [] false 0) w
    = while fuel CASEClient.loop_test (CASEClient.loop_body E)
        (reached j) (after_pages E w j).
Proof.
  induction j as [|j IH]; intros Hj fuel; [reflexivity|].
  replace (S j + fuel)%nat with (j + S fuel)%nat by lia.
  rewrite IH by lia. cbn [while].
  rewrite loop_test_true by (unfold reached; cbn [CASEClient.done CASEClient.counter];
                             unfold CASEClient.max_requests; try reflexivity; lia).
  destruct (first_pages
              (map (page_request E (access_token w)) (map Z.of_nat (seq 0 j)))
              (page_request E (access_token w) (Z.of_nat j)))
    as [r [Hr Hcarries]].
  { apply page_requests_are_page_requests. }
  { apply page_request_is_page_request. }
  { rewrite !length_map, length_seq. lia. }
  rewrite !length_map, length_seq in Hcarries.
  rewrite <- after_pages_trace in Hr.
  rewrite <- (after_pages_token E w j) in Hr.
  unfold bind.
  rewrite (loop_body_page E (reached j) (after_pages E w j) r (nth j pages [])).
  - pose proof (nth_nonempty pages j nonempty ltac:(lia)) as Hne.
    destruct (nth j pages []) as [|doc docs] eqn:Hpage; [now elim Hne|].
    unfold reached. cbn [CASEClient.documents CASEClient.done CASEClient.counter].
    rewrite after_pages_token.
    rewrite (concat_firstn_S pages j) by lia. rewrite Hpage.
    replace (Z.of_nat j + 1) with (Z.of_nat (S j)) by lia. reflexivity.
  - exact Hr.
  - exact Hcarries.
Qed.

Lemma firstn_all_pages : List.concat (firstn (List.length pages) pages) = List.concat pages.
Proof. now rewrite firstn_all. Qed.

End EarlyEnd.

Lemma get_documents_after_pages (E : Env) (w : World) (pages : list (list json))
    (fuel : nat) :
  serves_first (server E) (trace w) pages ->
  all_nonempty pages ->
  (List.length pages < 10)%nat ->
  (11 <= fuel)%nat ->
  let n := List.length pages in
  let l := CASEClient.mkLocals (List.concat pages) false (Z.of_nat n) in
  exists fuel',
    CASEClient.get_documents E fuel w
    = bind (bind (CASEClient.loop_body E l)
              (while (S fuel') CASEClient.loop_test (CASEClient.loop_body E)))
        (fun l' => ret (CASEClient.documents l'))
        (after_pages E w n).
Proof.
  intros Hfirst Hne Hroom Hfuel n l. subst l n.
  exists (fuel - List.length pages - 2)%nat. unfold CASEClient.get_documents.
  unfold bind at 1. unfold bind at 2.
  replace fuel
    with (List.length pages + S (S (fuel - List.length pages - 2)))%nat at 1 by lia.
  rewrite (while_prefix E w pages Hfirst Hne Hroom (List.length pages) (le_n _)).
  rewrite firstn_all. cbn [while].
  rewrite loop_test_true by (cbn [CASEClient.done CASEClient.counter];
                             unfold CASEClient.max_requests; try reflexivity; lia).
  reflexivity.
Qed.

Lemma pages_then_serves_first (pages : list (list json)) (last : Outcome) :
  serves_first (pages_then pages last) [] pages.
Proof.
  intros asked req _ _ Hlen. unfold pages_then. cbn [app].
  apply Nat.ltb_lt in Hlen. rewrite Hlen.
  eexists. split; [reflexivity|]. split; [reflexivity|].
  eexists. split; reflexivity.
Qed.

(** The requests for the first [n] pages. *)
Lemma after_pages_request (E : Env) (w : World) (n : nat) (o : Outcome) :
  server E (trace w ++ map (page_request E (access_token w)) (map Z.of_nat (seq 0 n)))
    (page_request E (access_token w) (Z.of_nat n)) = o ->
  server E (trace (after_pages E w n))
    (page_request E (access_token (after_pages E w n)) (Z.of_nat n)) = o.
Proof. now rewrite after_pages_trace, after_pages_token. Qed.

(** X13.  A page whose [CFDocuments] is falsy ends the collection quietly,
    whatever its type: [null], [false], [0], the empty string and the empty
    object do what the empty list does.  After [n] pages that were not
    empty (fewer than ten), such an answer makes the paginator return the
    records of those pages, all of them and in order, after [n + 1]
    requests. *)
Theorem paginator_stops_at_falsy_page (E : Env) (w : World)
    (pages : list (list json)) (fuel : nat) (r : Response) (body chunk : json) :
  let n := List.length pages in
  let asked k := map (page_request E (access_token w)) (map Z.of_nat (seq 0 k)) in
  let run := CASEClient.get_documents E fuel w in
  serves_first (server E) (trace w) pages ->
  all_nonempty pages ->
  (n < 10)%nat ->
  (11 <= fuel)%nat ->
  server E (trace w ++ asked n) (page_request E (access_token w) (Z.of_nat n))
  = Responded r ->
  ok r = true ->
  json_body r = Some body ->
  getitem body "CFDocuments" = Return chunk ->
  truthy chunk = false ->
  fst run = Return (List.concat pages) /\
  trace (snd run) = trace w ++ asked (S n).
Proof.
  intros n asked run Hfirst Hne Hroom Hfuel Hr Hok Hbody Hget Hfalsy.
  destruct (get_documents_after_pages E w pages fuel Hfirst Hne Hroom Hfuel)
    as [fuel' Hrun].
  cbv zeta in Hrun. fold n in Hrun.
  apply after_pages_request in Hr.
  assert (Hfinal : run
    = (Return (List.concat pages),
       sent (page_request E (access_token w) (Z.of_nat n))
         (printed (PrintArgs ["GET"; url (page_request E (access_token w) (Z.of_nat n))])
            (after_pages E w n)))).
  { subst run. rewrite Hrun. unfold bind.
    rewrite (loop_body_ok E
               (CASEClient.mkLocals (List.concat pages) false (Z.of_nat n))
               (after_pages E w n) r Hr Hok).
    unfold response_json. rewrite Hbody, Hget, Hfalsy. cbn [while].
    rewrite loop_test_false by (left; reflexivity).
    now rewrite after_pages_token. }
  rewrite Hfinal. split; [reflexivity|].
  cbn [snd trace sent printed]. rewrite after_pages_trace. unfold asked.
  rewrite seq_S, !map_app, app_assoc. reflexivity.
Qed.

Lemma paginator_stops_at_falsy_page_witness :
  let pages := [[record 1; record 2]; [record 3]] in
  let last := mkResponse 200 "{}" (Some (JObj [("CFDocuments", JNull)])) in
  let E := env_of (pages_then pages (Responded last)) in
  let run := CASEClient.get_documents E 11 (instance "id" "secret" "t") in
  fst run = Return [record 1; record 2; record 3] /\
  List.length (trace (snd run)) = 3%nat.
Proof.
  intros pages last E run.
  assert (Hne : all_nonempty pages)
    by (repeat (apply Forall_cons; [discriminate|]); apply Forall_nil).
  destruct (paginator_stops_at_falsy_page E (instance "id" "secret" "t") pages 11
              last (JObj [("CFDocuments", JNull)]) JNull
              (pages_then_serves_first pages (Responded last)) Hne
              ltac:(cbn; lia) (le_n 11) eq_refl eq_refl eq_refl eq_refl eq_refl)
    as [Hres Htrace].
  split; [exact Hres|]. fold run in Htrace. rewrite Htrace. reflexivity.
Defined.

(** X14.  A page that cannot be read fails the whole run: the records of the
    pages before it are not returned.  After [n] pages that were not empty,
    a successful response makes the paginator raise [ValueError] when its
    body is not JSON, [KeyError('CFDocuments')] when the body is an object
    without that field, the error of the lookup in general, and the error
    of [extend] when the field holds something truthy that cannot be
    iterated (a number other than 0, or [true]). *)
Theorem paginator_raises_on_malformed_page (E : Env) (w : World)
    (pages : list (list json)) (fuel : nat) (r : Response) :
  let n := List.length pages in
  let asked k := map (page_request E (access_token w)) (map Z.of_nat (seq 0 k)) in
  let run := CASEClient.get_documents E fuel w in
  serves_first (server E) (trace w) pages ->
  all_nonempty pages ->
  (n < 10)%nat ->
  (11 <= fuel)%nat ->
  server E (trace w ++ asked n) (page_request E (access_token w) (Z.of_nat n))
  = Responded r ->
  ok r = true ->
  (json_body r = None -> fst run = Raise ValueError) /\
  (forall fields, json_body r = Some (JObj fields) ->
     lookup "CFDocuments" fields = None ->
     fst run = Raise (KeyError "CFDocuments")) /\
  (forall body e, json_body r = Some body ->
     getitem body "CFDocuments" = Raise e -> fst run = Raise e) /\
  (forall body chunk e, json_body r = Some body ->
     getitem body "CFDocuments" = Return chunk ->
     truthy chunk = true ->
     extend (List.concat pages) chunk = Raise e -> fst run = Raise e).
Proof.
  intros n asked run Hfirst Hne Hroom Hfuel Hr Hok.
  destruct (get_documents_after_pages E w pages fuel Hfirst Hne Hroom Hfuel)
    as [fuel' Hrun].
  cbv zeta in Hrun. fold n in Hrun.
  apply after_pages_request in Hr.
  assert (Hturn := loop_body_ok E
            (CASEClient.mkLocals (List.concat pages) false (Z.of_nat n))
            (after_pages E w n) r Hr Hok).
  cbv zeta in Hturn. cbn [CASEClient.documents CASEClient.done CASEClient.counter] in Hturn.
  subst run. rewrite Hrun. unfold bind. rewrite Hturn. unfold response_json.
  split; [|split; [|split]].
  - intros Hb. now rewrite Hb.
  - intros fields Hb Hl. rewrite Hb. cbn [getitem]. now rewrite Hl.
  - intros body e Hb Hg. now rewrite Hb, Hg.
  - intros body chunk e Hb Hg Ht He. now rewrite Hb, Hg, Ht, He.
Qed.

Lemma paginator_raises_on_malformed_page_witness :
  let pages := [[record 1; record 2]; [record 3]] in
  let run last := CASEClient.get_documents (env_of (pages_then pages (Responded last)))
                    11 (instance "id" "secret" "t") in
  fst (run (mkResponse 200 "{}" (Some (JObj [])))) = Raise (KeyError "CFDocuments") /\
  fst (run (mkResponse 200 "<html>" None)) = Raise ValueError /\
  fst (run (mkResponse 200 "7" (Some (JObj [("CFDocuments", JNum 7)])))) = Raise TypeError.
Proof.
  intros pages run.
  assert (Hne : all_nonempty pages)
    by (repeat (apply Forall_cons; [discriminate|]); apply Forall_nil).
  assert (Hroom : (List.length pages < 10)%nat) by (cbn; lia).
  destruct (paginator_raises_on_malformed_page
              (env_of (pages_then pages (Responded (mkResponse 200 "{}" (Some (JObj []))))))
              (instance "id" "secret" "t") pages 11 (mkResponse 200 "{}" (Some (JObj [])))
              (pages_then_serves_first pages _) Hne Hroom (le_n 11) eq_refl eq_refl)
    as [_ [Hkey _]].
  destruct (paginator_raises_on_malformed_page
              (env_of (pages_then pages (Responded (mkResponse 200 "<html>" None))))
              (instance "id" "secret" "t") pages 11 (mkResponse 200 "<html>" None)
              (pages_then_serves_first pages _) Hne Hroom (le_n 11) eq_refl eq_refl)
    as [Hvalue _].
  destruct (paginator_raises_on_malformed_page
              (env_of (pages_then pages
                 (Responded (mkResponse 200 "7" (Some (JObj [("CFDocuments", JNum 7)]))))))
              (instance "id" "secret" "t") pages 11
              (mkResponse 200 "7" (Some (JObj [("CFDocuments", JNum 7)])))
              (pages_then_serves_first pages _) Hne Hroom (le_n 11) eq_refl eq_refl)
    as [_ [_ [_ Hext]]].
  split; [exact (Hkey [] eq_refl eq_refl)|].
  split; [exact (Hvalue eq_refl)|].
  exact (Hext _ _ _ eq_refl eq_refl eq_refl eq_refl).
Defined.

(** X15.  A page request that fails fails the whole run in the same way.  After
    [n] pages that were not empty, a transport failure makes the paginator
    raise the exception of the HTTP library, and an error response that is
    neither a 401 nor a 403 makes it raise the HTTP error of that response;
    in both cases after [n + 1] requests and without the records fetched so
    far. *)
Theorem paginator_raises_on_failed_page (E : Env) (w : World)
    (pages : list (list json)) (fuel : nat) :
  let n := List.length pages in
  let asked k := map (page_request E (access_token w)) (map Z.of_nat (seq 0 k)) in
  let req := page_request E (access_token w) (Z.of_nat n) in
  let run := CASEClient.get_documents E fuel w in
  serves_first (server E) (trace w) pages ->
  all_nonempty pages ->
  (n < 10)%nat ->
  (11 <= fuel)%nat ->
  (server E (trace w ++ asked n) req = TransportFailure ->
   fst run = Raise RequestException /\ trace (snd run) = trace w ++ asked (S n)) /\
  (forall r, server E (trace w ++ asked n) req = Responded r ->
     ok r = false -> CASEClient.unauthorized r = false ->
     fst run = Raise (HTTPError r) /\ trace (snd run) = trace w ++ asked (S n)).
Proof.
  intros n asked req run Hfirst Hne Hroom Hfuel.
  destruct (get_documents_after_pages E w pages fuel Hfirst Hne Hroom Hfuel)
    as [fuel' Hrun].
  cbv zeta in Hrun. fold n in Hrun.
  destruct (loop_body_fails E
              (CASEClient.mkLocals (List.concat pages) false (Z.of_nat n))
              (after_pages E w n)) as [Hdown Herror].
  cbn [CASEClient.counter] in Hdown, Herror.
  assert (Hasked : trace (after_pages E w n) ++ [req] = trace w ++ asked (S n)).
  { rewrite after_pages_trace. unfold asked.
    rewrite seq_S, !map_app, app_assoc. reflexivity. }
  split.
  - intros Hr. apply after_pages_request in Hr. specialize (Hdown Hr).
    assert (Hfinal : run = (Raise RequestException,
              sent req (printed (PrintArgs ["GET"; url req]) (after_pages E w n)))).
    { subst run. rewrite Hrun. unfold bind. rewrite Hdown.
      now rewrite after_pages_token. }
    rewrite Hfinal. split; [reflexivity | exact Hasked].
  - intros r Hr Hok Hun. apply after_pages_request in Hr.
    specialize (Herror r Hr Hok Hun).
    assert (Hfinal : fst run = Raise (HTTPError r) /\
                     trace (snd run) = trace (after_pages E w n) ++ [req]).
    { subst run. rewrite Hrun. unfold bind. rewrite Herror.
      rewrite after_pages_token. split; reflexivity. }
    destruct Hfinal as [H1 H2]. split; [exact H1 | now rewrite H2].
Qed.

Lemma paginator_raises_on_failed_page_witness :
  let pages := [[record 1; record 2]; [record 3]] in
  let run last := CASEClient.get_documents (env_of (pages_then pages last))
                    11 (instance "id" "secret" "t") in
  fst (run TransportFailure) = Raise RequestException /\
  fst (run (Responded (status_response 500 "boom")))
  = Raise (HTTPError (status_response 500 "boom")) /\
  List.length (trace (snd (run TransportFailure))) = 3%nat.
Proof.
  intros pages run.
  assert (Hne : all_nonempty pages)
    by (repeat (apply Forall_cons; [discriminate|]); apply Forall_nil).
  assert (Hroom : (List.length pages < 10)%nat) by (cbn; lia).
  destruct (paginator_raises_on_failed_page (env_of (pages_then pages TransportFailure))
              (instance "id" "secret" "t") pages 11
              (pages_then_serves_first pages _) Hne Hroom (le_n 11))
    as [Hdown _].
  destruct (paginator_raises_on_failed_page
              (env_of (pages_then pages (Responded (status_response 500 "boom"))))
              (instance "id" "secret" "t") pages 11
              (pages_then_serves_first pages _) Hne Hroom (le_n 11))
    as [_ Herror].
  destruct (Hdown eq_refl) as [H1 H2].
  destruct (Herror _ eq_refl eq_refl eq_refl) as [H3 _].
  split; [exact H1|]. split; [exact H3|].
  unfold run. rewrite H2. reflexivity.
Defined.

(** ** Text that is pasted as it is *)

(** X16.  The values of the parameters go into the URL unescaped: a value that
    contains [&] and [=] is read by a server as further parameters.  The URL
    built for a parameter whose value is [v&k2=v2] is the URL built for the
    two parameters [k=v] and [k2=v2]. *)
Theorem query_values_are_not_escaped (E : Env) (path k v k2 v2 : string)
    (rest : list (string * json)) :
  CASEClient.build_url E path
    (Some ((k, JStr (v ++ "&" ++ k2 ++ "=" ++ v2)%string) :: rest))
  = CASEClient.build_url E path (Some ((k, JStr v) :: (k2, JStr v2) :: rest)).
Proof.
  unfold CASEClient.build_url. do 2 f_equal.
  cbn [map fst snd CASEClient.str String.concat].
  destruct (map (fun kv => (fst kv ++ "=" ++ CASEClient.str E (snd kv))%string) rest)
    as [|next others].
  - now rewrite !append_assoc.
  - now rewrite !append_assoc.
Qed.

(** X17.  The Basic header cannot tell where the identifier ends when it holds a
    colon: a client whose identifier is [a:b] and whose secret is [c] and a
    client whose identifier is [a] and whose secret is [b:c] send the same
    token request and get the same result and the same token. *)
Theorem colon_in_identifier_is_ambiguous (E : Env) (a b c : string) (token : json)
    (requests : list Request) (output : list Printed) :
  let w := mkWorld (JStr (a ++ ":" ++ b)%string) (JStr c) token requests output in
  let w' := mkWorld (JStr a) (JStr (b ++ ":" ++ c)%string) token requests output in
  fst (CASEClient.obtain_access_token E w) = fst (CASEClient.obtain_access_token E w') /\
  trace (snd (CASEClient.obtain_access_token E w))
  = trace (snd (CASEClient.obtain_access_token E w')) /\
  access_token (snd (CASEClient.obtain_access_token E w))
  = access_token (snd (CASEClient.obtain_access_token E w')).
Proof.
  intros w w'.
  assert (Hheader : (((a ++ ":" ++ b) ++ ":") ++ c = (a ++ ":") ++ b ++ ":" ++ c)%string)
    by now rewrite !append_assoc.
  assert (Hpost : token_request (a ++ ":" ++ b) c = token_request a (b ++ ":" ++ c)).
  { unfold token_request. now rewrite Hheader. }
  destruct (forallb is_ascii (list_ascii_of_string ((a ++ ":") ++ b ++ ":" ++ c)%string))
    eqn:Hascii.
  - rewrite (obtain_access_token_run E w (a ++ ":" ++ b) c eq_refl eq_refl)
      by (now rewrite Hheader).
    rewrite (obtain_access_token_run E w' a (b ++ ":" ++ c) eq_refl eq_refl Hascii).
    cbv zeta. rewrite Hpost. change (trace w) with (trace w').
    destruct (server E (trace w') (token_request a (b ++ ":" ++ c))) as [r|];
      [|repeat split; reflexivity].
    destruct (ok r); [|repeat split; reflexivity].
    destruct (json_body r) as [body|]; [|repeat split; reflexivity].
    destruct (getitem body "access_token"); repeat split; reflexivity.
  - rewrite (obtain_access_token_not_ascii E w (a ++ ":" ++ b) c eq_refl eq_refl)
      by (now rewrite Hheader).
    rewrite (obtain_access_token_not_ascii E w' a (b ++ ":" ++ c) eq_refl eq_refl Hascii).
    repeat split; reflexivity.
Qed.

(** * The report *)

(** ** The order of the keys *)

Lemma ltb_irrefl (a : string) : String.ltb a a = false.
Proof.
  unfold String.ltb.
  assert (H : String.compare a a = Eq) by now apply String_as_OT.cmp_eq.
  now rewrite H.
Qed.

Lemma ltb_trans (a b c : string) :
  String.ltb a b = true -> String.ltb b c = true -> String.ltb a c = true.
Proof.
  unfold String.ltb. intros Hab Hbc.
  destruct (String.compare a b) eqn:Eab; try discriminate Hab.
  destruct (String.compare b c) eqn:Ebc; try discriminate Hbc.
  apply String_as_OT.cmp_lt in Eab, Ebc.
  pose proof (String_as_OT.lt_trans _ _ _ Eab Ebc) as Hac.
  apply String_as_OT.cmp_lt in Hac. unfold String_as_OT.cmp in Hac.
  now rewrite Hac.
Qed.

Lemma ltb_total (a b : string) :
  String.ltb a b = false -> String.ltb b a = false -> a = b.
Proof.
  unfold String.ltb. intros Hab Hba.
  rewrite (String.compare_antisym b a) in Hba.
  destruct (String.compare a b) eqn:Eab; cbn in Hba; try discriminate.
  now apply String.compare_eq_iff.
Qed.

Lemma tuple_lt_trans (a b c : string * string) :
  Main.tuple_lt a b = true -> Main.tuple_lt b c = true -> Main.tuple_lt a c = true.
Proof.
  unfold Main.tuple_lt. destruct a as [a1 a2], b as [b1 b2], c as [c1 c2]. cbn [fst snd].
  intros Hab Hbc.
  apply orb_true_iff in Hab as [Hab|Hab]; apply orb_true_iff in Hbc as [Hbc|Hbc].
  - now rewrite (ltb_trans a1 b1 c1).
  - apply andb_true_iff in Hbc as [He Hl]. apply String.eqb_eq in He. subst c1.
    now rewrite Hab.
  - apply andb_true_iff in Hab as [He Hl]. apply String.eqb_eq in He. subst b1.
    now rewrite Hbc.
  - apply andb_true_iff in Hab as [He1 Hl1]. apply andb_true_iff in Hbc as [He2 Hl2].
    apply String.eqb_eq in He1, He2. subst b1 c1.
    rewrite String.eqb_refl, (ltb_trans a2 b2 c2) by assumption.
    apply orb_true_r.
Qed.

Lemma tuple_lt_total (a b : string * string) :
  Main.tuple_lt a b = false -> Main.tuple_lt b a = false -> a = b.
Proof.
  unfold Main.tuple_lt. destruct a as [a1 a2], b as [b1 b2]. cbn [fst snd].
  intros Hab Hba.
  apply orb_false_iff in Hab as [H1 H2]. apply orb_false_iff in Hba as [H3 H4].
  assert (a1 = b1) by now apply ltb_total. subst b1.
  rewrite String.eqb_refl in H2, H4. cbn in H2, H4.
  f_equal. now apply ltb_total.
Qed.

Lemma not_above_trans (a b c : Main.Document) :
  not_above a b -> not_above b c -> not_above a c.
Proof.
  unfold not_above. intros Hab Hbc.
  destruct (Main.tuple_lt (Main.creator_title c) (Main.creator_title a)) eqn:Hca;
    [|reflexivity].
  destruct (Main.tuple_lt (Main.creator_title a) (Main.creator_title b)) eqn:Hlt.
  - now rewrite (tuple_lt_trans _ _ _ Hca Hlt) in Hbc.
  - rewrite <- (tuple_lt_total _ _ Hlt Hab) in Hbc. congruence.
Qed.

(** ** [sorted] *)

Lemma insert_perm (d : Main.Document) (l : list Main.Document) :
  Permutation (d :: l) (Main.insert d l).
Proof.
  induction l as [|d' l IH]; cbn [Main.insert]; [reflexivity|].
  destruct (Main.tuple_lt _ _); [|reflexivity].
  rewrite perm_swap. now apply perm_skip.
Qed.

Lemma sorted_perm (l : list Main.Document) : Permutation l (Main.sorted l).
Proof.
  induction l as [|d l IH]; [reflexivity|]. cbn [Main.sorted fold_right].
  rewrite <- insert_perm. now apply perm_skip.
Qed.

Lemma insert_sorted (d : Main.Document) (l : list Main.Document) :
  StronglySorted not_above l -> StronglySorted not_above (Main.insert d l).
Proof.
  induction l as [|d' l IH]; intros Hs; cbn [Main.insert].
  - repeat constructor.
  - inversion Hs as [|? ? Hrest Hall]; subst.
    destruct (Main.tuple_lt (Main.creator_title d') (Main.creator_title d)) eqn:Hlt.
    + constructor; [now apply IH|].
      rewrite <- (insert_perm d l). constructor; [|exact Hall].
      unfold not_above.
      destruct (Main.tuple_lt (Main.creator_title d) (Main.creator_title d')) eqn:Hgt;
        [|reflexivity].
      pose proof (tuple_lt_trans _ _ _ Hlt Hgt) as Hself.
      unfold Main.tuple_lt in Hself.
      rewrite ltb_irrefl, ltb_irrefl, andb_false_r in Hself. discriminate Hself.
    + constructor; [exact Hs|]. constructor; [exact Hlt|].
      eapply Forall_impl; [|exact Hall]. intros x Hx.
      now apply (not_above_trans d d' x).
Qed.

Lemma sorted_sorted (l : list Main.Document) : StronglySorted not_above (Main.sorted l).
Proof.
  induction l as [|d l IH]; [constructor|]. now apply insert_sorted.
Qed.

Lemma with_key_spec (k : string * string) (d : Main.Document) :
  with_key k d = true <-> Main.creator_title d = k.
Proof.
  unfold with_key, Main.creator_title. destruct k as [c t]. cbn [fst snd]. split.
  - intros H. apply andb_true_iff in H as [H1 H2].
    apply String.eqb_eq in H1, H2. now subst.
  - intros H. inversion H. now rewrite !String.eqb_refl.
Qed.

Lemma tuple_lt_irrefl (a : string * string) : Main.tuple_lt a a = false.
Proof. unfold Main.tuple_lt. now rewrite !ltb_irrefl, andb_false_r. Qed.

Lemma insert_filter (k : string * string) (d : Main.Document) (l : list Main.Document) :
  filter (with_key k) (Main.insert d l) = filter (with_key k) (d :: l).
Proof.
  induction l as [|d' l IH]; cbn [Main.insert]; [reflexivity|].
  destruct (Main.tuple_lt (Main.creator_title d') (Main.creator_title d)) eqn:Hlt;
    [|reflexivity].
  cbn [filter] in *. rewrite IH.
  destruct (with_key k d) eqn:Hd; [|reflexivity].
  destruct (with_key k d') eqn:Hd'; [|reflexivity].
  apply with_key_spec in Hd, Hd'. rewrite Hd, Hd', tuple_lt_irrefl in Hlt.
  discriminate Hlt.
Qed.

Lemma sorted_filter (k : string * string) (l : list Main.Document) :
  filter (with_key k) (Main.sorted l) = filter (with_key k) l.
Proof.
  induction l as [|d l IH]; [reflexivity|]. cbn [Main.sorted fold_right].
  rewrite insert_filter. cbn [filter]. fold (Main.sorted l). now rewrite IH.
Qed.

(** ** [groupby] and [dict] *)

Lemma groupby_concat (l : list Main.Document) :
  List.concat (map snd (Main.groupby l)) = l.
Proof.
  induction l as [|d l IH]; [reflexivity|]. cbn [Main.groupby].
  destruct (Main.groupby l) as [|[k g] groups].
  - cbn in IH. subst l. reflexivity.
  - destruct (String.eqb (Main.creator d) k); cbn [map snd List.concat app] in *;
      now rewrite IH.
Qed.

Lemma groupby_groups (l : list Main.Document) :
  Forall (fun entry => snd entry <> [] /\
                       Forall (fun d => Main.creator d = fst entry) (snd entry))
    (Main.groupby l).
Proof.
  induction l as [|d l IH]; [constructor|]. cbn [Main.groupby].
  destruct (Main.groupby l) as [|[k g] groups].
  - repeat constructor. discriminate.
  - inversion IH as [|? ? [Hne Hall] Hrest]; subst. cbn [fst snd] in *.
    destruct (String.eqb (Main.creator d) k) eqn:He.
    + apply String.eqb_eq in He. constructor; [|exact Hrest]. cbn [fst snd].
      split; [discriminate | now constructor].
    + constructor; [|exact IH]. cbn [fst snd].
      split; [discriminate | now repeat constructor].
Qed.

Lemma groupby_head (d : Main.Document) (l : list Main.Document) :
  exists g groups, Main.groupby (d :: l) = (Main.creator d, g) :: groups.
Proof.
  cbn [Main.groupby]. destruct (Main.groupby l) as [|[k g] groups]; [eauto|].
  destruct (String.eqb (Main.creator d) k) eqn:He; [|eauto].
  apply String.eqb_eq in He. subst k. eauto.
Qed.

Lemma groupby_keys (l : list Main.Document) (k : string) :
  In k (map fst (Main.groupby l)) -> exists d, In d l /\ Main.creator d = k.
Proof.
  intros Hin. apply in_map_iff in Hin as [[k' g] [Hk Hin]]. cbn in Hk. subst k'.
  pose proof (groupby_groups l) as Hall. rewrite Forall_forall in Hall.
  destruct (Hall _ Hin) as [Hne Hg]. cbn [fst snd] in *.
  destruct g as [|d g]; [now elim Hne|].
  exists d. split; [|now inversion Hg].
  rewrite <- (groupby_concat l). apply in_concat. exists (d :: g).
  split; [|now left]. apply in_map_iff. exists (k, d :: g). now split.
Qed.

Lemma not_above_creator (a b : Main.Document) :
  not_above a b -> String.ltb (Main.creator b) (Main.creator a) = false.
Proof.
  unfold not_above, Main.tuple_lt, Main.creator_title. cbn [fst snd].
  intros H. now apply orb_false_iff in H as [H _].
Qed.

Lemma groupby_keys_increase (l : list Main.Document) :
  StronglySorted not_above l ->
  StronglySorted (fun a b => String.ltb a b = true) (map fst (Main.groupby l)).
Proof.
  induction l as [|d l IH]; intros Hs; [constructor|].
  inversion Hs as [|? ? Hrest Hall]; subst. specialize (IH Hrest).
  destruct l as [|d' l]; [repeat constructor|].
  destruct (groupby_head d' l) as [g [groups Hg]].
  cbn [Main.groupby] in *. rewrite Hg in *. cbn [map fst] in IH.
  destruct (String.eqb (Main.creator d) (Main.creator d')) eqn:He; [exact IH|].
  cbn [map fst]. constructor; [exact IH|].
  assert (Hfirst : String.ltb (Main.creator d) (Main.creator d') = true).
  { inversion Hall as [|? ? Hd' _]; subst. apply not_above_creator in Hd'.
    destruct (String.ltb (Main.creator d) (Main.creator d')) eqn:Hlt; [reflexivity|].
    apply String.eqb_neq in He. now elim He; apply ltb_total. }
  inversion IH as [|? ? _ Hkeys]; subst.
  constructor; [exact Hfirst|].
  eapply Forall_impl; [|exact Hkeys]. intros k Hk.
  now apply (ltb_trans _ (Main.creator d') _).
Qed.

Lemma increasing_NoDup (keys : list string) :
  StronglySorted (fun a b => String.ltb a b = true) keys -> NoDup keys.
Proof.
  induction keys as [|k keys IH]; intros Hs; [constructor|].
  inversion Hs as [|? ? Hrest Hall]; subst. constructor; [|now apply IH].
  intros Hin. rewrite Forall_forall in Hall. specialize (Hall k Hin).
  now rewrite ltb_irrefl in Hall.
Qed.

Lemma dict_set_fresh (k : string) (v : list Main.Document)
    (d : list (string * list Main.Document)) :
  ~ In k (map fst d) -> Main.dict_set k v d = d ++ [(k, v)].
Proof.
  induction d as [|[k' v'] d IH]; intros Hfresh; [reflexivity|].
  cbn [Main.dict_set app]. cbn [map fst In] in Hfresh.
  destruct (String.eqb k' k) eqn:He.
  - apply String.eqb_eq in He. tauto.
  - rewrite IH by tauto. reflexivity.
Qed.

Lemma dict_fold_fresh (pairs d : list (string * list Main.Document)) :
  NoDup (map fst (d ++ pairs)) ->
  fold_left (fun d kv => Main.dict_set (fst kv) (snd kv) d) pairs d = d ++ pairs.
Proof.
  revert d. induction pairs as [|[k v] pairs IH]; intros d Hnd.
  - now rewrite app_nil_r.
  - cbn [fold_left fst snd].
    assert (Hfresh : ~ In k (map fst d)).
    { rewrite map_app in Hnd. cbn [map fst] in Hnd.
      apply NoDup_remove_2 in Hnd. intros Hin. apply Hnd.
      apply in_or_app. now left. }
    rewrite (dict_set_fresh k v d Hfresh).
    rewrite IH; rewrite <- app_assoc; [reflexivity | exact Hnd].
Qed.

Lemma dict_of_distinct (pairs : list (string * list Main.Document)) :
  NoDup (map fst pairs) -> Main.dict pairs = pairs.
Proof. intros Hnd. unfold Main.dict. now rewrite dict_fold_fresh. Qed.

(** The dictionary of the report holds the groups as [groupby] found them:
    after the sort no creator comes twice, so no group replaces another. *)
Lemma documents_by_creator_groups (docs : list Main.Document) :
  Main.documents_by_creator docs = Main.groupby (Main.sorted_documents docs).
Proof.
  unfold Main.documents_by_creator. apply dict_of_distinct.
  apply increasing_NoDup, groupby_keys_increase, sorted_sorted.
Qed.

(** ** What the report prints *)

Example report_of_four :
  Main.report [doc "B" "y" "1"; doc "A" "z" "2"; doc "B" "x" "3"; doc "A" "z" "4"]
  = [ PrintArgs ["Creator > CFDocuments::"; "4"; "in total"];
      PrintArgs ["===================================="];
      PrintArgs ["  - Creator:"; "A"];
      PrintArgs ["      -"; "z"; "(Adopted)"; "2"];
      PrintArgs ["      -"; "z"; "(Adopted)"; "4"];
      PrintArgs ["  - Creator:"; "B"];
      PrintArgs ["      -"; "x"; "(Adopted)"; "3"];
      PrintArgs ["      -"; "y"; "(Adopted)"; "1"] ].
Proof. reflexivity. Qed.

Lemma document_lines_of_groups (groups : list (string * list Main.Document)) :
  filter is_document_line (flat_map Main.creator_lines groups)
  = map Main.document_line (List.concat (map snd groups)).
Proof.
  induction groups as [|[k g] groups IH]; [reflexivity|].
  cbn [flat_map map snd List.concat]. rewrite filter_app, map_app, IH. f_equal.
  unfold Main.creator_lines. cbn [fst snd filter is_document_line].
  clear IH. induction g as [|d g IHg]; [reflexivity|].
  cbn [map filter Main.document_line is_document_line]. now rewrite IHg.
Qed.

Lemma creator_lines_of_groups (groups : list (string * list Main.Document)) :
  filter is_creator_line (flat_map Main.creator_lines groups)
  = map creator_line (map fst groups).
Proof.
  induction groups as [|[k g] groups IH]; [reflexivity|].
  cbn [flat_map map fst]. rewrite filter_app, IH.
  unfold Main.creator_lines. cbn [fst snd filter is_creator_line].
  replace (filter is_creator_line (map Main.document_line g)) with (@nil Printed);
    [reflexivity|].
  induction g as [|d g IHg]; [reflexivity|].
  cbn [map filter Main.document_line is_creator_line]. exact IHg.
Qed.

(** X18.  Every document that was fetched is listed exactly once: the lines of
    the report that list a document are, from top to bottom, the lines of
    the documents in sorted order, and the sorted documents are the fetched
    ones rearranged.  No group of a creator is lost when the groups are put
    into a dictionary, because after the sort a creator has one group. *)
Theorem report_lists_every_document_once (docs : list Main.Document) :
  filter is_document_line (Main.report docs)
  = map Main.document_line (Main.sorted_documents docs) /\
  Permutation docs (Main.sorted_documents docs) /\
  List.length (filter is_document_line (Main.report docs)) = List.length docs.
Proof.
  assert (Hlines : filter is_document_line (Main.report docs)
                   = map Main.document_line (Main.sorted_documents docs)).
  { unfold Main.report. cbn [filter is_document_line].
    rewrite document_lines_of_groups, documents_by_creator_groups.
    now rewrite groupby_concat. }
  assert (Hperm : Permutation docs (Main.sorted_documents docs)) by apply sorted_perm.
  split; [exact Hlines|]. split; [exact Hperm|].
  rewrite Hlines, length_map. symmetry. now apply Permutation_length.
Qed.

(** X19.  Each creator is named once, and the creators come in increasing order:
    the lines of the report that name a creator are those of the keys of
    the dictionary, which increase strictly and are exactly the creators of
    the documents fetched. *)
Theorem report_names_each_creator_once (docs : list Main.Document) :
  let creators := map fst (Main.documents_by_creator docs) in
  filter is_creator_line (Main.report docs) = map creator_line creators /\
  StronglySorted (fun a b => String.ltb a b = true) creators /\
  (forall c, In c creators <-> exists d, In d docs /\ Main.creator d = c).
Proof.
  intros creators. subst creators. rewrite documents_by_creator_groups.
  split; [|split].
  - unfold Main.report. cbn [filter is_creator_line].
    now rewrite creator_lines_of_groups, documents_by_creator_groups.
  - apply groupby_keys_increase, sorted_sorted.
  - intros c. split.
    + intros Hin. destruct (groupby_keys _ c Hin) as [d [Hd Hc]].
      exists d. split; [|exact Hc].
      apply (Permutation_in d (Permutation_sym (sorted_perm docs))). exact Hd.
    + intros [d [Hd Hc]].
      apply (Permutation_in d (sorted_perm docs)) in Hd.
      unfold Main.sorted_documents.
      rewrite <- (groupby_concat (Main.sorted docs)) in Hd.
      apply in_concat in Hd as [g [Hg Hdg]].
      apply in_map_iff in Hg as [[k g'] [Heq Hin]]. cbn [snd] in Heq. subst g'.
      pose proof (groupby_groups (Main.sorted docs)) as Hall.
      rewrite Forall_forall in Hall. destruct (Hall _ Hin) as [_ Hg].
      rewrite Forall_forall in Hg. cbn [fst snd] in Hg.
      rewrite <- Hc, (Hg d Hdg). apply in_map_iff. exists (k, g). now split.
Qed.

Lemma filter_none (c : string) (groups : list (string * list Main.Document)) :
  Forall (fun entry => snd entry <> [] /\
                       Forall (fun d => Main.creator d = fst entry) (snd entry)) groups ->
  ~ In c (map fst groups) ->
  filter (has_creator c) (List.concat (map snd groups)) = [].
Proof.
  induction groups as [|[k g] groups IH]; intros Hall Hnot; [reflexivity|].
  inversion Hall as [|? ? [_ Hg] Hrest]; subst. cbn [fst snd] in *.
  cbn [map fst In] in Hnot.
  assert (Hk : k <> c) by tauto. assert (Hnot' : ~ In c (map fst groups)) by tauto.
  cbn [map snd List.concat]. rewrite filter_app, (IH Hrest Hnot').
  rewrite app_nil_r. clear IH Hall Hrest Hnot Hnot'.
  induction g as [|d g IHg]; [reflexivity|].
  inversion Hg as [|? ? Hd Hg']; subst. cbn [filter].
  unfold has_creator at 1. destruct (String.eqb (Main.creator d) c) eqn:He.
  - apply String.eqb_eq in He. now elim Hk.
  - now apply IHg.
Qed.

Lemma filter_all (c : string) (g : list Main.Document) :
  Forall (fun d => Main.creator d = c) g -> filter (has_creator c) g = g.
Proof.
  induction g as [|d g IH]; intros Hall; [reflexivity|].
  inversion Hall as [|? ? Hd Hg]; subst. cbn [filter]. unfold has_creator at 1.
  rewrite String.eqb_refl. now rewrite IH.
Qed.

Lemma group_is_filter (k : string) (g : list Main.Document)
    (groups : list (string * list Main.Document)) :
  Forall (fun entry => snd entry <> [] /\
                       Forall (fun d => Main.creator d = fst entry) (snd entry)) groups ->
  NoDup (map fst groups) ->
  In (k, g) groups ->
  filter (has_creator k) (List.concat (map snd groups)) = g.
Proof.
  induction groups as [|[k1 g1] groups IH]; intros Hall Hnd Hin; [now elim Hin|].
  inversion Hall as [|? ? [_ Hg1] Hrest]; subst. cbn [fst snd] in *.
  inversion Hnd as [|? ? Hfresh Hnd']; subst.
  cbn [map snd List.concat]. rewrite filter_app.
  destruct Hin as [Heq|Hin].
  - inversion Heq; subst. rewrite (filter_all k g Hg1).
    rewrite (filter_none k groups Hrest Hfresh). now rewrite app_nil_r.
  - rewrite (IH Hrest Hnd' Hin).
    assert (Hne : k1 <> k).
    { intros He. subst k1. apply Hfresh. apply in_map_iff. exists (k, g). now split. }
    replace (filter (has_creator k) g1) with (@nil Main.Document); [reflexivity|].
    clear -Hg1 Hne. induction g1 as [|d g1 IHg]; [reflexivity|].
    inversion Hg1 as [|? ? Hd Hg']; subst. cbn [filter]. unfold has_creator at 1.
    destruct (String.eqb (Main.creator d) k) eqn:He.
    + apply String.eqb_eq in He. now elim Hne.
    + now apply IHg.
Qed.

Lemma filter_perm (p : Main.Document -> bool) (l l' : list Main.Document) :
  Permutation l l' -> Permutation (filter p l) (filter p l').
Proof.
  induction 1 as [|x l l' _ IH|x y l|l l' l'' _ IH1 _ IH2]; cbn [filter].
  - constructor.
  - destruct (p x); [now constructor | exact IH].
  - destruct (p x), (p y); try reflexivity. apply perm_swap.
  - now transitivity (filter p l').
Qed.

Lemma filter_sorted (R : Main.Document -> Main.Document -> Prop)
    (p : Main.Document -> bool) (l : list Main.Document) :
  StronglySorted R l -> StronglySorted R (filter p l).
Proof.
  induction 1 as [|x l Hs IH Hall]; cbn [filter]; [constructor|].
  destruct (p x); [|exact IH]. constructor; [exact IH|].
  rewrite Forall_forall in *. intros y Hy. apply Hall.
  now apply filter_In in Hy as [Hy _].
Qed.

Lemma sorted_titles (c : string) (g : list Main.Document) :
  Forall (fun d => Main.creator d = c) g ->
  StronglySorted not_above g -> StronglySorted title_not_above g.
Proof.
  induction g as [|d g IH]; intros Hc Hs; [constructor|].
  inversion Hc as [|? ? Hd Hg]; subst. inversion Hs as [|? ? Hrest Hall]; subst.
  constructor; [now apply IH|].
  rewrite Forall_forall in *. intros y Hy. specialize (Hall y Hy).
  unfold not_above, Main.tuple_lt, Main.creator_title in Hall. cbn [fst snd] in Hall.
  apply orb_false_iff in Hall as [_ Hall]. rewrite (Hg y Hy) in Hall.
  rewrite String.eqb_refl in Hall. exact Hall.
Qed.

Lemma filter_key_split (k t : string) (l : list Main.Document) :
  filter (has_title t) (filter (has_creator k) l) = filter (with_key (k, t)) l.
Proof.
  induction l as [|d l IH]; [reflexivity|].
  cbn [filter]. unfold with_key, has_creator, has_title in *. cbn [fst snd] in *.
  destruct (String.eqb (Main.creator d) k); cbn [filter andb]; [|exact IH].
  destruct (String.eqb (Main.title d) t); now rewrite IH.
Qed.

(** X20.  Under its creator, the report lists all the documents of that creator
    and no others, by title in increasing order; documents with the same
    title stay in the order in which they were fetched.  No creator is
    named without a document. *)
Theorem report_lists_a_creator_by_title (docs : list Main.Document)
    (k : string) (g : list Main.Document) :
  In (k, g) (Main.documents_by_creator docs) ->
  g <> [] /\
  Permutation g (filter (has_creator k) docs) /\
  StronglySorted title_not_above g /\
  (forall t, filter (has_title t) g = filter (with_key (k, t)) docs).
Proof.
  rewrite documents_by_creator_groups. intros Hin.
  pose proof (groupby_groups (Main.sorted_documents docs)) as Hall.
  assert (Hnd : NoDup (map fst (Main.groupby (Main.sorted_documents docs))))
    by apply increasing_NoDup, groupby_keys_increase, sorted_sorted.
  pose proof (group_is_filter k g _ Hall Hnd Hin) as Hg.
  rewrite groupby_concat in Hg.
  rewrite Forall_forall in Hall. destruct (Hall _ Hin) as [Hne Hcreator].
  cbn [fst snd] in Hne, Hcreator.
  split; [exact Hne|]. split; [|split].
  - rewrite <- Hg. apply filter_perm, Permutation_sym, sorted_perm.
  - apply (sorted_titles k); [exact Hcreator|].
    rewrite <- Hg. apply filter_sorted, sorted_sorted.
  - intros t. rewrite <- Hg.
    rewrite <- (sorted_filter (k, t) docs). apply filter_key_split.
Qed.

Lemma report_lists_a_creator_by_title_witness :
  let docs := [doc "B" "y" "1"; doc "A" "z" "2"; doc "B" "x" "3"; doc "A" "z" "4"] in
  Permutation [doc "A" "z" "2"; doc "A" "z" "4"] (filter (has_creator "A") docs) /\
  filter (has_title "z") [doc "A" "z" "2"; doc "A" "z" "4"]
  = filter (with_key ("A", "z")%string) docs.
Proof.
  intros docs.
  destruct (report_lists_a_creator_by_title docs "A"
              [doc "A" "z" "2"; doc "A" "z" "4"] (or_introl eq_refl))
    as [_ [Hperm [_ Hstable]]].
  split; [exact Hperm | exact (Hstable "z"%string)].
Defined.
